(** * Tareas-CLI: the task store, its storage adapter and its exporters

    A shallow embedding of [src/lib/storage.py] and of the store and export
    functions of [src/tareas.py], with the properties of the natural-language
    specification stated over it.

    Layout: [Py] holds the Python values and builtins the code relies on,
    [Storage] the file system and [lib/storage.py], [Tareas] the module
    globals and functions of [tareas.py]; the theorems follow. *)

From Stdlib Require Import ZArith String Ascii List Lia.
From Stdlib Require Import Floats.SpecFloat Sorting.Sorted.
From Stdlib Require DecimalString.
From stdpp Require Import base option list gmap strings sorting.

#[local] Set Warnings "-register-all".

Open Scope string_scope.
Open Scope Z_scope.

(* ===================================================================== *)
(** ** Python values and builtins *)
(* ===================================================================== *)

Module Py.

(** What [json.load] produces and [json.dump] accepts.  A [dict] keeps its
    insertion order, so it is an association list; the code only ever uses
    string keys.  Text is held as its UTF-8 bytes. *)
Inductive json : Type :=
  | JNull
  | JBool (b : bool)
  | JInt (n : Z)
  | JFloat (f : spec_float)
  | JStr (s : string)
  | JArr (items : list json)
  | JObj (fields : list (string * json)).

(** [bool(v)] / [not v]: Python truthiness. *)
Definition truthy (v : json) : bool :=
  match v with
  | JNull => false
  | JBool b => b
  | JInt n => negb (Z.eqb n 0)
  | JFloat (S754_zero _) => false
  | JFloat _ => true
  | JStr "" => false
  | JStr _ => true
  | JArr [] => false
  | JArr _ => true
  | JObj [] => false
  | JObj _ => true
  end.

(** *** [dict] operations *)

(** [d[k]] on a dict; [None] is [KeyError]. *)
Fixpoint dict_get (k : string) (d : list (string * json)) : option json :=
  match d with
  | [] => None
  | (k', v) :: d' => if String.eqb k k' then Some v else dict_get k d'
  end.

(** [d[k] = v]: an existing key keeps its place, a new one goes last. *)
Fixpoint dict_set (k : string) (v : json) (d : list (string * json))
  : list (string * json) :=
  match d with
  | [] => [(k, v)]
  | (k', v') :: d' =>
      if String.eqb k k' then (k, v) :: d' else (k', v') :: dict_set k v d'
  end.

(** [t[k]] for a string key [k]: [TypeError] unless [t] is a dict (a list or
    a string wants an integer index, the other values do not subscript),
    [KeyError] when the key is missing.  Both are [None]. *)
Definition getitem (t : json) (k : string) : option json :=
  match t with
  | JObj d => dict_get k d
  | _ => None
  end.

(** [t[k] = v] for a string key: [None] is the [TypeError] of a non-dict. *)
Definition setitem (t : json) (k : string) (v : json) : option json :=
  match t with
  | JObj d => Some (JObj (dict_set k v d))
  | _ => None
  end.

(** [t.get(k, dflt)]: [None] is the [AttributeError] of a value without
    [.get]. *)
Definition get_default (t : json) (k : string) (dflt : json) : option json :=
  match t with
  | JObj d => Some (default dflt (dict_get k d))
  | _ => None
  end.

(** *** [str.strip()] *)

Definition char1 (a : nat) : string := String (ascii_of_nat a) EmptyString.
Definition char2 (a b : nat) : string := String (ascii_of_nat a) (char1 b).
Definition char3 (a b c : nat) : string := String (ascii_of_nat a) (char2 b c).

(** The characters [str.isspace] accepts, each in UTF-8: U+0009..U+000D,
    U+001C..U+0020, U+0085, U+00A0, U+1680, U+2000..U+200A, U+2028, U+2029,
    U+202F, U+205F and U+3000. *)
Definition whitespace : list string :=
  ((char1 <$> [9; 10; 11; 12; 13; 28; 29; 30; 31; 32])
   ++ [char2 194 133; char2 194 160; char3 225 154 128]
   ++ (char3 226 128 <$> [128; 129; 130; 131; 132; 133; 134; 135; 136; 137;
                           138; 168; 169; 175])
   ++ [char3 226 129 159; char3 227 128 128])%nat%list.

(** [s] without its prefix [p]. *)
Fixpoint without_prefix (p s : string) : option string :=
  match p, s with
  | EmptyString, _ => Some s
  | String a p', String b s' =>
      if Ascii.eqb a b then without_prefix p' s' else None
  | String _ _, EmptyString => None
  end.

(** [s] without the first of the prefixes [ps] it starts with. *)
Fixpoint without_any (ps : list string) (s : string) : option string :=
  match ps with
  | [] => None
  | p :: ps' =>
      match without_prefix p s with
      | Some r => Some r
      | None => without_any ps' s
      end
  end.

(** Dropping leading occurrences of [ps], at most [fuel] of them. *)
Fixpoint drop_leading (ps : list string) (fuel : nat) (s : string) : string :=
  match fuel with
  | O => s
  | S n =>
      match without_any ps s with
      | Some r => drop_leading ps n r
      | None => s
      end
  end.

Definition lstrip (s : string) : string :=
  drop_leading whitespace (String.length s) s.

(** The trailing characters are the leading ones of the reversed text. *)
Definition rstrip (s : string) : string :=
  String.rev (drop_leading (String.rev <$> whitespace) (String.length s)
                (String.rev s)).

Definition strip (s : string) : string := rstrip (lstrip s).

(** *** [int(v)] *)

Definition byte (c : ascii) : Z := Z.of_N (N_of_ascii c).

(** A continuation byte of UTF-8 gives six bits. *)
Definition continuation (s : string) : option (Z * string) :=
  match s with
  | String c r =>
      let n := byte c in
      if (128 <=? n) && (n <? 192) then Some (n - 128, r) else None
  | EmptyString => None
  end.

(** The first character of a text, as its code point, and the rest. *)
Definition decode (s : string) : option (Z * string) :=
  match s with
  | EmptyString => None
  | String c r =>
      let n := byte c in
      if n <? 128 then Some (n, r)
      else if n <? 192 then None
      else if n <? 224 then
        '(a, r1) ← continuation r;
        Some ((n - 192) * 64 + a, r1)
      else if n <? 240 then
        '(a, r1) ← continuation r;
        '(b, r2) ← continuation r1;
        Some (((n - 224) * 64 + a) * 64 + b, r2)
      else if n <? 248 then
        '(a, r1) ← continuation r;
        '(b, r2) ← continuation r1;
        '(c, r3) ← continuation r2;
        Some ((((n - 240) * 64 + a) * 64 + b) * 64 + c, r3)
      else None
  end.

(** The whitespace beyond ASCII: U+0085, U+00A0, U+1680, U+2000..U+200A,
    U+2028, U+2029, U+202F, U+205F and U+3000. *)
Definition wide_space (cp : Z) : bool :=
  existsb (Z.eqb cp) [133; 160; 5760; 8232; 8233; 8239; 8287; 12288]
  || ((8192 <=? cp) && (cp <=? 8202)).

(** The decimal digits come in runs of ten, 0 to 9; these are the zeros of
    the runs, from U+0030 to U+1FBF0 (Unicode 14, the tables of
    Python 3.11). *)
Definition decimal_zeros : list Z :=
  [48; 1632; 1776; 1984; 2406; 2534; 2662; 2790; 2918; 3046; 3174; 3302;
   3430; 3558; 3664; 3792; 3872; 4160; 4240; 6112; 6160; 6470; 6608; 6784;
   6800; 6992; 7088; 7232; 7248; 42528; 43216; 43264; 43472; 43504; 43600;
   44016; 65296; 66720; 68912; 69734; 69872; 69942; 70096; 70384; 70736;
   70864; 71248; 71360; 71472; 71904; 72016; 72784; 73040; 73120; 92768;
   92864; 93008; 120782; 120792; 120802; 120812; 120822; 123200; 123632;
   125264; 130032].

(** The value of the character [cp] as a decimal digit. *)
Fixpoint decimal_in (zeros : list Z) (cp : Z) : option Z :=
  match zeros with
  | [] => None
  | z :: zs =>
      if (z <=? cp) && (cp <? z + 10) then Some (cp - z)
      else decimal_in zs cp
  end.

(** What [int] parses is the text rewritten in ASCII: a character of ASCII
    stays, any other whitespace becomes a space, any other decimal digit
    the ASCII digit of its value.  [None] is the [ValueError] of a
    character that is none of these.  Each round takes a character off, so
    [String.length s] rounds do for [s]. *)
Fixpoint to_ascii (fuel : nat) (s : string) : option string :=
  match s, fuel with
  | EmptyString, _ => Some EmptyString
  | String _ _, O => None
  | String _ _, S n =>
      '(cp, r) ← decode s;
      c ← (if cp <? 128 then Some cp
           else if wide_space cp then Some 32
           else (λ d, 48 + d) <$> decimal_in decimal_zeros cp);
      String (ascii_of_N (Z.to_N c)) <$> to_ascii n r
  end.

(** The whitespace of C, which the parser skips around the number: tab,
    line feed, vertical tab, form feed, carriage return and space.  The
    separators U+001C..U+001F, which [str.strip] removes, are not in it. *)
Definition c_whitespace : list string :=
  (char1 <$> [9; 10; 11; 12; 13; 32])%nat.

Definition skip_spaces (s : string) : string :=
  drop_leading c_whitespace (String.length s) s.

Definition digit_val (c : ascii) : option Z :=
  let n := nat_of_ascii c in
  if ((48 <=? n) && (n <=? 57))%nat then Some (Z.of_nat n - 48) else None.

(** Decimal digits, single underscores allowed between two digits. *)
Fixpoint parse_digits (acc : Z) (after_digit : bool) (s : string) : option Z :=
  match s with
  | EmptyString => if after_digit then Some acc else None
  | String c s' =>
      if Ascii.eqb c "_" then
        if after_digit then parse_digits acc false s' else None
      else
        match digit_val c with
        | Some d => parse_digits (10 * acc + d) true s'
        | None => None
        end
  end.

(** [int(s)] for a string, base 10: whitespace, an optional sign, digits,
    whitespace.  [None] is [ValueError].  (The interpreter's limit on the
    number of digits is not modelled.) *)
Definition int_of_str (s : string) : option Z :=
  a ← to_ascii (String.length s) s;
  match String.rev (skip_spaces (String.rev (skip_spaces a))) with
  | String "+" r => parse_digits 0 false r
  | String "-" r => Z.opp <$> parse_digits 0 false r
  | r => parse_digits 0 false r
  end.

(** [int(f)] for a float: truncation towards zero; [None] is the
    [ValueError] of NaN or the [OverflowError] of an infinity. *)
Definition int_of_float (f : spec_float) : option Z :=
  match f with
  | S754_zero _ => Some 0
  | S754_infinity _ => None
  | S754_nan => None
  | S754_finite sign m e =>
      let mag := if 0 <=? e then Z.pos m * 2 ^ e else Z.pos m / 2 ^ (- e) in
      Some (if sign then - mag else mag)
  end.

(** [int(v)]; [None] is [TypeError] (None, list, dict) or [ValueError]. *)
Definition py_int (v : json) : option Z :=
  match v with
  | JBool b => Some (if b then 1 else 0)
  | JInt n => Some n
  | JFloat f => int_of_float f
  | JStr s => int_of_str s
  | JNull | JArr _ | JObj _ => None
  end.

(** *** [os.path.join] (POSIX), two components *)
Fixpoint ends_with_slash (s : string) : bool :=
  match s with
  | EmptyString => false
  | String c EmptyString => Ascii.eqb c "/"
  | String _ s' => ends_with_slash s'
  end.

Definition path_join (a b : string) : string :=
  match b with
  | String "/" _ => b
  | _ => if String.eqb a "" || ends_with_slash a then a ++ b
         else a ++ "/" ++ b
  end.

(** *** [datetime] formatting *)

Record datetime : Type := {
  year : nat; month : nat; day : nat;
  hour : nat; minute : nat; second : nat
}.

Definition digit_char (n : nat) : ascii := ascii_of_nat (48 + n mod 10).

Fixpoint decimal_pad (width : nat) (n : nat) : string :=
  match width with
  | O => EmptyString
  | S w => decimal_pad w (n / 10) ++ String (digit_char n) EmptyString
  end.

(** [d.isoformat(timespec="seconds")] *)
Definition isoformat (d : datetime) : string :=
  decimal_pad 4 (year d) ++ "-" ++ decimal_pad 2 (month d) ++ "-"
  ++ decimal_pad 2 (day d) ++ "T" ++ decimal_pad 2 (hour d) ++ ":"
  ++ decimal_pad 2 (minute d) ++ ":" ++ decimal_pad 2 (second d).

(** [d.strftime("%Y%m%d_%H%M%S")] *)
Definition strftime_compact (d : datetime) : string :=
  decimal_pad 4 (year d) ++ decimal_pad 2 (month d) ++ decimal_pad 2 (day d)
  ++ "_" ++ decimal_pad 2 (hour d) ++ decimal_pad 2 (minute d)
  ++ decimal_pad 2 (second d).

End Py.

Import Py.

(* ===================================================================== *)
(** ** The environment and [lib/storage.py] *)
(* ===================================================================== *)

Module Storage.

(** Exceptions, as far as the handlers tell them apart: the decoder's own
    error, and every other [Exception] with its [str(e)]. *)
Inductive exn : Type :=
  | JSONDecodeError
  | Exception (msg : string).

Inductive outcome (A : Type) : Type :=
  | Return (a : A)
  | Raise (e : exn).
Arguments Return {A} a.
Arguments Raise {A} e.

(** A computation over a state [S] that returns or raises. *)
Definition M (S A : Type) : Type := S → outcome A * S.

Definition ret {S A} (a : A) : M S A := λ s, (Return a, s).

Definition raise {S A} (e : exn) : M S A := λ s, (Raise e, s).

Definition bind {S A B} (m : M S A) (k : A → M S B) : M S B :=
  λ s, match m s with
       | (Return a, s') => k a s'
       | (Raise e, s') => (Raise e, s')
       end.

(** [try: m  except ...: handler(e)] *)
Definition try_except {S A} (m : M S A) (handler : exn → M S A) : M S A :=
  λ s, match m s with
       | (Return a, s') => (Return a, s')
       | (Raise e, s') => handler e s'
       end.

(** [for x in l: body(x)] *)
Fixpoint for_each {S A} (l : list A) (body : A → M S unit) : M S unit :=
  match l with
  | [] => ret tt
  | x :: l' => bind (body x) (λ _, for_each l' body)
  end.

Notation "x <- m ;; k" := (bind m (λ x, k))
  (at level 20, m at level 99, k at level 200, only parsing).
Notation "m ;; k" := (bind m (λ _, k))
  (at level 100, k at level 200, only parsing, right associativity).

(** What a path holds.  The [json] library is taken as a faithful codec: a
    file written by [json.dump] is the document it was given, and a text the
    decoder rejects is [Corrupt] (so is a file cut short while written). *)
Inductive file : Type :=
  | Unreadable (err : string)       (* open/read raises, not a decode error *)
  | Corrupt                         (* text that is not valid JSON *)
  | JsonDoc (doc : json)            (* text that parses to [doc] *)
  | CsvDoc (rows : list (list json)). (* rows handed to a csv writer *)

(** How writing to a path fails, when it does. *)
Inductive write_fault : Type :=
  | OpenFails (err : string)        (* [open(path, "w")] raises *)
  | WriteFails (err : string).      (* the file opens, writing raises *)

Record World : Type := {
  files : gmap string file;          (* the paths that exist *)
  write_faults : gmap string write_fault;
  mkdir_faults : gmap string string; (* directories that cannot be made *)
  dirs : gset string;                (* directories made so far *)
  clock : nat → datetime;            (* the n-th reading of the clock *)
  ticks : nat;                       (* readings taken so far *)
  stdout : list string               (* lines printed so far *)
}.

Definition set_files (f : gmap string file) (w : World) : World :=
  {| files := f; write_faults := write_faults w;
     mkdir_faults := mkdir_faults w; dirs := dirs w; clock := clock w;
     ticks := ticks w; stdout := stdout w |}.

Definition set_dirs (d : gset string) (w : World) : World :=
  {| files := files w; write_faults := write_faults w;
     mkdir_faults := mkdir_faults w; dirs := d; clock := clock w;
     ticks := ticks w; stdout := stdout w |}.

Definition set_ticks (n : nat) (w : World) : World :=
  {| files := files w; write_faults := write_faults w;
     mkdir_faults := mkdir_faults w; dirs := dirs w; clock := clock w;
     ticks := n; stdout := stdout w |}.

Definition set_stdout (o : list string) (w : World) : World :=
  {| files := files w; write_faults := write_faults w;
     mkdir_faults := mkdir_faults w; dirs := dirs w; clock := clock w;
     ticks := ticks w; stdout := o |}.

(** *** Primitives *)

(** [print(msg)] *)
Definition print (msg : string) : M World unit :=
  λ w, (Return tt, set_stdout (stdout w ++ [msg]) w).

(** [os.path.exists(path)] *)
Definition path_exists (path : string) : M World bool :=
  λ w, (Return (bool_decide (is_Some (files w !! path))), w).

(** [with open(path, "r", encoding="utf-8") as f: json.load(f)] *)
Definition json_load (path : string) : M World json :=
  λ w, match files w !! path with
       | None => (Raise (Exception "No such file or directory"), w)
       | Some (Unreadable err) => (Raise (Exception err), w)
       | Some Corrupt | Some (CsvDoc _) => (Raise JSONDecodeError, w)
       | Some (JsonDoc doc) => (Return doc, w)
       end.

(** [with open(path, "w", encoding="utf-8") as f:
       json.dump(v, f, ensure_ascii=False, indent=2)] *)
Definition json_dump (path : string) (v : json) : M World unit :=
  λ w, match write_faults w !! path with
       | Some (OpenFails err) => (Raise (Exception err), w)
       | Some (WriteFails err) =>
           (Raise (Exception err), set_files (<[path := Corrupt]> (files w)) w)
       | None => (Return tt, set_files (<[path := JsonDoc v]> (files w)) w)
       end.

(** [open(path, "w", encoding="utf-8", newline="")]: the file is emptied. *)
Definition csv_open (path : string) : M World unit :=
  λ w, match write_faults w !! path with
       | Some (OpenFails err) => (Raise (Exception err), w)
       | _ => (Return tt, set_files (<[path := CsvDoc []]> (files w)) w)
       end.

(** One row through the csv writer of the file opened at [path]. *)
Definition csv_writerow (path : string) (row : list json) : M World unit :=
  λ w, match write_faults w !! path with
       | Some (WriteFails err) => (Raise (Exception err), w)
       | _ =>
           let rows := match files w !! path with
                       | Some (CsvDoc rows) => rows
                       | _ => []
                       end in
           (Return tt, set_files (<[path := CsvDoc (rows ++ [row])]> (files w)) w)
       end.

(** [os.makedirs(path, exist_ok=True)] *)
Definition makedirs (path : string) : M World unit :=
  λ w, match mkdir_faults w !! path with
       | Some err => (Raise (Exception err), w)
       | None => (Return tt, set_dirs ({[path]} ∪ dirs w) w)
       end.

(** [datetime.now()] *)
Definition datetime_now : M World datetime :=
  λ w, (Return (clock w (ticks w)), set_ticks (S (ticks w)) w).

(** [str(e)] *)
Definition exn_str (e : exn) : string :=
  match e with
  | JSONDecodeError => "Expecting value"
  | Exception msg => msg
  end.

(** *** [lib/storage.py] *)

Definition msg_not_a_list (path : string) : string :=
  "El contenido de " ++ path ++ " no es una lista. Devolviendo lista vacía.".

Definition msg_corrupt (path : string) : string :=
  "El archivo " ++ path
  ++ " está corrupto o no es un JSON válido. Devolviendo lista vacía.".

Definition msg_read_error (path : string) (e : exn) : string :=
  "Ocurrió un error al leer " ++ path ++ ": " ++ exn_str e
  ++ ". Devolviendo lista vacía.".

Definition msg_write_error (path : string) (e : exn) : string :=
  "Ocurrió un error al escribir en " ++ path ++ ": " ++ exn_str e ++ ".".

Definition load_tasks (path : string) : M World (list json) :=
  found <- path_exists path ;;
  if negb found then ret []
  else
    try_except
      (data <- json_load path ;;
       match data with
       | JArr items => ret items
       | _ => print (msg_not_a_list path) ;; ret []
       end)
      (λ e, match e with
            | JSONDecodeError => print (msg_corrupt path) ;; ret []
            | _ => print (msg_read_error path e) ;; ret []
            end).

Definition save_tasks (path : string) (tasks : list json) : M World unit :=
  try_except (json_dump path (JArr tasks))
             (λ e, print (msg_write_error path e)).

End Storage.

Import Storage.

(* ===================================================================== *)
(** ** [tareas.py] *)
(* ===================================================================== *)

Module Tareas.

(** The module globals [tasks] and [next_id], and the world around them.
    [tasks] is used through lookups, [max] and [sorted] only, so the order
    in which a Python [dict] holds its keys plays no part. *)
Record Sys : Type := {
  tasks : gmap Z json;
  next_id : Z;
  world : World
}.

Definition set_tasks (m : gmap Z json) (s : Sys) : Sys :=
  {| tasks := m; next_id := next_id s; world := world s |}.

Definition set_next_id (n : Z) (s : Sys) : Sys :=
  {| tasks := tasks s; next_id := n; world := world s |}.

Definition set_world (w : World) (s : Sys) : Sys :=
  {| tasks := tasks s; next_id := next_id s; world := w |}.

(** The interpreter right after the module is imported. *)
Definition fresh (w : World) : Sys :=
  {| tasks := ∅; next_id := 1; world := w |}.

(** An action on the world, run from the program. *)
Definition io {A} (m : M World A) : M Sys A :=
  λ s, let '(r, w) := m (world s) in (r, set_world w s).

Definition get_tasks : M Sys (gmap Z json) := λ s, (Return (tasks s), s).
Definition get_next_id : M Sys Z := λ s, (Return (next_id s), s).
Definition put_tasks (m : gmap Z json) : M Sys unit :=
  λ s, (Return tt, set_tasks m s).
Definition put_next_id (n : Z) : M Sys unit :=
  λ s, (Return tt, set_next_id n s).

(** [m.keys()] and [sorted(m.keys())] *)
Definition keys (m : gmap Z json) : list Z := (map_to_list m).*1.
Definition sorted_keys (m : gmap Z json) : list Z := merge_sort Z.le (keys m).

(** [[m[k] for k in sorted(m.keys())]] *)
Definition as_list (m : gmap Z json) : list json :=
  omap (λ k, m !! k) (sorted_keys m).

(** [now_iso()] and [timestamp()] *)
Definition now_iso : M World string :=
  d <- datetime_now ;; ret (isoformat d).

Definition timestamp : M World string :=
  d <- datetime_now ;; ret (strftime_compact d).

Definition recalc_next_id : M Sys unit :=
  ts <- get_tasks ;;
  match keys ts with
  | [] => put_next_id 1
  | k :: ks => put_next_id (foldl Z.max k ks + 1)
  end.

(** [int(t["id"])]; [None] is any of the exceptions the loop swallows. *)
Definition coerce_id (t : json) : option Z := getitem t "id" ≫= py_int.

Definition fieldnames : list string :=
  ["id"; "date"; "title"; "description"; "done"; "updated_at"].

Section Program.

(** [os.path.dirname(__file__)] *)
Variable script_dir : string.

Definition DATA_FILE : string := path_join script_dir "tasks.json".
Definition EXPORT_DIR : string := path_join script_dir "exports".

Definition load_state : M Sys unit :=
  raw <- io (load_tasks DATA_FILE) ;;
  put_tasks ∅ ;;
  for_each raw (λ t,
    match coerce_id t with
    | Some tid => ts <- get_tasks ;; put_tasks (<[tid := t]> ts)
    | None => ret tt
    end) ;;
  recalc_next_id.

Definition persist : M Sys unit :=
  ts <- get_tasks ;;
  io (save_tasks DATA_FILE (as_list ts)).

Definition add_task (title description : string) (done : bool) : M Sys json :=
  n <- get_next_id ;;
  date <- io now_iso ;;
  updated_at <- io now_iso ;;
  let task := JObj [("id", JInt n); ("date", JStr date);
                    ("title", JStr (strip title));
                    ("description", JStr (strip description));
                    ("done", JBool done);
                    ("updated_at", JStr updated_at)] in
  ts <- get_tasks ;;
  put_tasks (<[n := task]> ts) ;;
  put_next_id (n + 1) ;;
  persist ;;
  ret task.

(** [t[k] = v] where [t] is the record stored under [task_id]: [edit_task]
    holds the stored object itself, so assigning to it updates the store. *)
Definition assign_field (task_id : Z) (k : string) (v : json) : M Sys unit :=
  ts <- get_tasks ;;
  match ts !! task_id ≫= (λ t, setitem t k v) with
  | Some t' => put_tasks (<[task_id := t']> ts)
  | None => raise (Exception "object does not support item assignment")
  end.

Definition edit_task (task_id : Z) (title description : string) (done : bool)
  : M Sys bool :=
  ts <- get_tasks ;;
  match ts !! task_id with
  | None => ret false
  | Some t =>
      if negb (truthy t) then ret false
      else
        assign_field task_id "title" (JStr (strip title)) ;;
        assign_field task_id "description" (JStr (strip description)) ;;
        assign_field task_id "done" (JBool done) ;;
        updated_at <- io now_iso ;;
        assign_field task_id "updated_at" (JStr updated_at) ;;
        persist ;;
        ret true
  end.

Definition delete_task (task_id : Z) : M Sys bool :=
  ts <- get_tasks ;;
  if bool_decide (is_Some (ts !! task_id)) then
    put_tasks (delete task_id ts) ;;
    persist ;;
    ret true
  else ret false.

Definition ensure_export_dir : M World unit := makedirs EXPORT_DIR.

Definition export_json : M Sys string :=
  io ensure_export_dir ;;
  stamp <- io timestamp ;;
  let path := path_join EXPORT_DIR ("tasks_" ++ stamp ++ ".json") in
  ts <- get_tasks ;;
  io (save_tasks path (as_list ts)) ;;
  ret path.

(** [{k: t.get(k, "") for k in fieldnames}], then the cells in the order of
    [fieldnames], which is how [DictWriter.writerow] lays the row out. *)
Fixpoint row_of (t : json) (names : list string) : option (list json) :=
  match names with
  | [] => Some []
  | k :: names' =>
      match get_default t k (JStr ""), row_of t names' with
      | Some v, Some cells => Some (v :: cells)
      | _, _ => None
      end
  end.

Definition export_csv : M Sys string :=
  io ensure_export_dir ;;
  stamp <- io timestamp ;;
  let path := path_join EXPORT_DIR ("tasks_" ++ stamp ++ ".csv") in
  io (csv_open path) ;;
  io (csv_writerow path (JStr <$> fieldnames)) ;;
  ts <- get_tasks ;;
  for_each (sorted_keys ts) (λ tid,
    match ts !! tid ≫= (λ t, row_of t fieldnames) with
    | Some row => io (csv_writerow path row)
    | None => raise (Exception "object has no attribute 'get'")
    end) ;;
  ret path.

(** *** Sessions *)

(** What the interactive shell asks of the store once it has loaded it. *)
Inductive command : Type :=
  | Add (title description : string) (done : bool)
  | Edit (task_id : Z) (title description : string) (done : bool)
  | Delete (task_id : Z)
  | ExportJson
  | ExportCsv.

Definition run_command (c : command) : M Sys unit :=
  match c with
  | Add title description done => add_task title description done ;; ret tt
  | Edit task_id title description done =>
      edit_task task_id title description done ;; ret tt
  | Delete task_id => delete_task task_id ;; ret tt
  | ExportJson => export_json ;; ret tt
  | ExportCsv => export_csv ;; ret tt
  end.

(** [session s]: [s] is a state of a run of the program, which loads the
    store once and then serves commands for as long as none raises. *)
Inductive session : Sys → Prop :=
  | session_load s0 s :
      load_state s0 = (Return tt, s) → session s
  | session_step s c s' :
      session s → run_command c s = (Return tt, s') → session s'.

(** [later s s']: the run that is in [s] can be in [s'] afterwards. *)
Inductive later (s : Sys) : Sys → Prop :=
  | later_refl : later s s
  | later_step s' c s'' :
      later s s' → run_command c s' = (Return tt, s'') → later s s''.

End Program.

(** *** The store invariant *)

(** Every record is filed under the integer its own ["id"] coerces to, and
    the counter is above every key. *)
Definition store_ok (s : Sys) : Prop :=
  (∀ k t, tasks s !! k = Some t → coerce_id t = Some k)
  ∧ (∀ k, is_Some (tasks s !! k) → k < next_id s).

(** A record with the six fields of a task. *)
Definition has_fields (names : list string) (t : json) : Prop :=
  ∀ k, k ∈ names → is_Some (getitem t k).

End Tareas.

Import Tareas.

(* ===================================================================== *)
(** ** [tareas.py]: the display and the interactive helpers *)
(* ===================================================================== *)

Module Shell.

(** *** Text by characters *)







Definition nl : string := String (ascii_of_nat 10) EmptyString.




Section Display.

(** [str(f)] for a float, the decimal text the interpreter gives it. *)
Variable float_str : spec_float → string.

(** The exception the interpreter raises on a record whose line cannot be
    made.  It is a [TypeError] for a number that is sliced or a list that
    is formatted; for a dict that is sliced it is a [TypeError] up to
    Python 3.11 and a [KeyError] from 3.12 on, where a slice can be
    hashed. *)
Variable line_error : json → exn.





(** [clear_screen()]: [os.system] clears the terminal, which is no part of
    the world here, and returns. *)
Definition clear_screen : M Sys unit := ret tt.


End Display.

(** *** Reading from the terminal *)

(** The program and the lines the user will still type. *)
Record Console : Type := {
  sys : Sys;
  stdin : list string
}.

(** A store or world action, run from the menus. *)
Definition run {A} (m : M Sys A) : M Console A :=
  λ c, let '(r, s) := m (sys c) in (r, {| sys := s; stdin := stdin c |}).

(** What [print] does to the console. *)
Definition shown (msg : string) (c : Console) : Console :=
  {| sys := set_world (set_stdout (stdout (world (sys c)) ++ [msg])%list
                         (world (sys c))) (sys c);
     stdin := stdin c |}.

(** [input(prompt)]: the prompt goes out as an entry of its own, then a line
    is read; with no line left it is [EOFError]. *)
Definition input (prompt : string) : M Console string :=
  λ c, match stdin c with
       | [] => (Raise (Exception "EOF when reading a line"), shown prompt c)
       | line :: rest =>
           (Return line,
            {| sys := sys (shown prompt c); stdin := rest |})
       end.

Definition msg_empty_text : string :=
  "⚠️  El texto no puede estar vacío. Intenta de nuevo.".

(** [input_non_empty(prompt)].  Each round of the [while True] reads a line
    or raises, so [S (length stdin)] rounds cover every run; [rounds] counts
    them down. *)
Fixpoint input_non_empty_loop (rounds : nat) (prompt : string)
  : M Console string :=
  match rounds with
  | O => raise (Exception "unreachable")
  | S n =>
      line <- input prompt ;;
      let val := strip line in
      if truthy (JStr val) then ret val
      else run (io (print msg_empty_text)) ;; input_non_empty_loop n prompt
  end.

Definition input_non_empty (prompt : string) : M Console string :=
  λ c, input_non_empty_loop (S (length (stdin c))) prompt c.

Section Menus.

Variable script_dir : string.

Definition export_menu : M Console unit :=
  run clear_screen ;;
  run (io (print ("💾 Guardar / Exportar" +:+ nl))) ;;
  run (io (print "1) Exportar a JSON (snapshot para compartir)")) ;;
  run (io (print "2) Exportar a CSV  (abrir en Excel/Sheets)")) ;;
  run (io (print "3) Volver")) ;;
  line <- input "Elige una opción [1-3]: " ;;
  let choice := strip line in
  if String.eqb choice "1" then
    p <- run (export_json script_dir) ;;
    run (io (print ("✅ Exportado JSON en: " +:+ p +:+ nl))) ;;
    input "Enter para continuar..." ;;
    ret tt
  else if String.eqb choice "2" then
    p <- run (export_csv script_dir) ;;
    run (io (print ("✅ Exportado CSV en: " +:+ p +:+ nl))) ;;
    input "Enter para continuar..." ;;
    ret tt
  else ret tt.

End Menus.

End Shell.

Import Shell.

(* ===================================================================== *)
(** ** Definitions used by the statements *)
(* ===================================================================== *)

(** From here on [++] joins lists; strings are joined with [+:+]. *)
Open Scope list_scope.

(** The body of the loop of [load_state], as a fold over the raw records. *)
Definition index_records (raw : list json) (m : gmap Z json) : gmap Z json :=
  foldl (λ acc t, match coerce_id t with
                  | Some tid => <[tid := t]> acc
                  | None => acc
                  end) m raw.

(** The counter [recalc_next_id] leaves for the store [m]. *)
Definition id_after (m : gmap Z json) : Z :=
  match keys m with
  | [] => 1
  | k :: ks => foldl Z.max k ks + 1
  end.

(** The records of [raw] that [load_state] files under [k], oldest first. *)
Definition filed_under (k : Z) (raw : list json) : list json :=
  filter (λ t, coerce_id t = Some k) raw.

(** A string made of whitespace characters only (the empty string
    included). *)
Inductive only_whitespace : string → Prop :=
  | only_whitespace_nil : only_whitespace ""
  | only_whitespace_cons c s :
      c ∈ whitespace → only_whitespace s → only_whitespace (c +:+ s).

(** The cell [export_csv] writes for field [k] of record [t]. *)
Definition cell (t : json) (k : string) : json :=
  default (JStr "") (getitem t k).

(** The rows [export_csv] writes below the header for the store [m]. *)
Definition csv_rows (m : gmap Z json) : list (list json) :=
  (λ t, cell t <$> fieldnames) <$> as_list m.

(** The file an export started in world [w] writes: [ext] is its suffix. *)
Definition export_path (script_dir : string) (w : World) (ext : string)
  : string :=
  path_join (EXPORT_DIR script_dir)
    ("tasks_" +:+ strftime_compact (clock w (ticks w)) +:+ ext).

(** The world once the export directory is there and the clock was read. *)
Definition export_started (script_dir : string) (w : World) : World :=
  set_ticks (S (ticks w)) (set_dirs ({[EXPORT_DIR script_dir]} ∪ dirs w) w).

(** The record [add_task] builds. *)
Definition task_record (n : Z) (date updated_at title description : string)
    (done : bool) : json :=
  JObj [("id", JInt n); ("date", JStr date); ("title", JStr (strip title));
        ("description", JStr (strip description)); ("done", JBool done);
        ("updated_at", JStr updated_at)].

(** The fields [edit_task] assigns, in its order. *)
Definition edited (d : list (string * json)) (title description : string)
    (done : bool) (updated_at : string) : list (string * json) :=
  dict_set "updated_at" (JStr updated_at)
    (dict_set "done" (JBool done)
       (dict_set "description" (JStr (strip description))
          (dict_set "title" (JStr (strip title)) d))).

(** A space, a no-break space (U+00A0) and a tab. *)
Definition blank_title : string := char1 32 +:+ char2 194 160 +:+ char1 9.

(** A clock and worlds to run the program in. *)
Definition demo_clock (n : nat) : datetime :=
  {| year := 2024; month := 5; day := 17;
     hour := 9; minute := 30; second := n mod 60 |}.

Definition demo_world (fs : gmap string file) : World :=
  {| files := fs; write_faults := ∅; mkdir_faults := ∅; dirs := ∅;
     clock := demo_clock; ticks := 0; stdout := [] |}.

(** A world in which the export directory cannot be made. *)
Definition no_export_dir_world : World :=
  {| files := ∅; write_faults := ∅;
     mkdir_faults := {[ EXPORT_DIR "/app" := "Permission denied" ]};
     dirs := ∅; clock := demo_clock; ticks := 0; stdout := [] |}.

(** A world in which the file of the next CSV export cannot be opened. *)
Definition no_csv_world : World :=
  {| files := ∅;
     write_faults :=
       {[ "/app/exports/tasks_20240517_093000.csv" := OpenFails "Disk quota exceeded" ]};
     mkdir_faults := ∅; dirs := ∅; clock := demo_clock; ticks := 0;
     stdout := [] |}.

(** A world whose data file cannot be written. *)
Definition read_only_world (fs : gmap string file) : World :=
  {| files := fs;
     write_faults := {[ DATA_FILE "/app" := OpenFails "Read-only file system" ]};
     mkdir_faults := ∅; dirs := ∅; clock := demo_clock; ticks := 0;
     stdout := [] |}.



(** Data files whose ids are strings: a digit behind the separator U+001C,
    which [int] rejects, and ARABIC-INDIC DIGIT TWO, which it reads. *)
Definition separator_id_doc : json :=
  JArr [JObj [("id", JInt 7); ("title", JStr "first")];
        JObj [("id", JStr (char1 28 +:+ "7")); ("title", JStr "second")]].

Definition arabic_id_doc : json :=
  JArr [JObj [("id", JInt 2); ("title", JStr "first")];
        JObj [("id", JStr "٢"); ("title", JStr "second")]].

(** A data file left by an earlier version: one record has no text fields,
    and two records claim the id 2. *)
Definition legacy_doc : json :=
  JArr [JObj [("id", JInt 7)];
        JObj [("id", JInt 2); ("title", JStr "first")];
        JObj [("id", JStr "2"); ("title", JStr "second")]].

(** A data file with the tasks 1 and 2. *)
Definition two_tasks_doc : json :=
  JArr [JObj [("id", JInt 2); ("date", JStr "2024-05-01T08:00:00");
              ("title", JStr "Pan"); ("description", JStr "");
              ("done", JBool true);
              ("updated_at", JStr "2024-05-01T08:00:00")];
        JObj [("id", JInt 1); ("date", JStr "2024-05-01T07:00:00");
              ("title", JStr "Leche"); ("description", JStr "2%");
              ("done", JBool false);
              ("updated_at", JStr "2024-05-01T07:00:00")]].

(** The store loaded from that file. *)
Definition two_tasks_state : Sys :=
  (load_state "/app"
     (fresh (demo_world {[ DATA_FILE "/app" := JsonDoc two_tasks_doc ]}))).2.

(** The store loaded from the legacy file. *)
Definition legacy_state : Sys :=
  (load_state "/app"
     (fresh (demo_world {[ DATA_FILE "/app" := JsonDoc legacy_doc ]}))).2.

(** The legacy store after one task was added to it. *)
Definition legacy_after_add : Sys :=
  (run_command "/app" (Add "Comprar pan" "" false) legacy_state).2.


(** The data file holds the store, by ascending id. *)
Definition synced (script_dir : string) (s : Sys) : Prop :=
  files (world s) !! DATA_FILE script_dir
  = Some (JsonDoc (JArr (as_list (tasks s)))).

(** A world in which the file of the next JSON export cannot be opened. *)
Definition no_json_world : World :=
  {| files := ∅;
     write_faults :=
       {[ "/app/exports/tasks_20240517_093000.json"
          := OpenFails "Disk quota exceeded" ]};
     mkdir_faults := ∅; dirs := ∅; clock := demo_clock; ticks := 0;
     stdout := [] |}.



(** What [export_menu] prints before it asks for the choice. *)
Definition export_menu_lines : list string :=
  ["💾 Guardar / Exportar" +:+ nl;
   "1) Exportar a JSON (snapshot para compartir)";
   "2) Exportar a CSV  (abrir en Excel/Sheets)";
   "3) Volver";
   "Elige una opción [1-3]: "].

(** The console [c] with [out] added to what was printed and [rest] left
    to read. *)
Definition console_after (c : Console) (w : World) (out : list string)
    (rest : list string) : Console :=
  {| sys := set_world (set_stdout (stdout (world (sys c)) ++ out) w) (sys c);
     stdin := rest |}.

(** Projections of updated consoles, and nothing else. *)
Ltac console_simpl :=
  cbn [sys stdin shown console_after
       world set_world tasks set_tasks next_id set_next_id
       files write_faults mkdir_faults dirs clock ticks stdout
       set_files set_dirs set_ticks set_stdout].

(** Projections of updated states, and nothing else. *)
Ltac wsimpl :=
  cbn [world set_world tasks set_tasks next_id set_next_id
       files write_faults mkdir_faults dirs clock ticks stdout
       set_files set_dirs set_ticks set_stdout].

(* ===================================================================== *)
(** ** The builtins on a few inputs *)
(* ===================================================================== *)

Example int_of_padded_string : py_int (JStr " 2 ") = Some 2.
Proof. reflexivity. Qed.

Example int_of_signed_string : py_int (JStr "-1_000") = Some (-1000).
Proof. reflexivity. Qed.

Example int_of_bad_string : py_int (JStr "2a") = None.
Proof. reflexivity. Qed.

(** [int] reads the decimal digits of every script, here ARABIC-INDIC DIGIT
    TWO and two fullwidth digits, and skips the whitespace beyond ASCII, here
    a no-break space and an ideographic space. *)
Example int_of_arabic_digit : py_int (JStr "٢") = Some 2.
Proof. vm_compute. reflexivity. Qed.

Example int_of_fullwidth_digits : py_int (JStr "-２_３") = Some (-23).
Proof. vm_compute. reflexivity. Qed.

Example int_of_wide_padded_string :
  py_int (JStr (char2 194 160 +:+ "7" +:+ char3 227 128 128)) = Some 7.
Proof. vm_compute. reflexivity. Qed.

(** It does not skip the separators U+001C..U+001F, which [strip] removes,
    and takes no sign or letter beyond ASCII. *)
Example int_of_separator_padded_string :
  py_int (JStr (char1 28 +:+ "7")) = None
  ∧ py_int (JStr ("7" +:+ char1 31)) = None
  ∧ strip (char1 28 +:+ "7" +:+ char1 31) = "7".
Proof. vm_compute. done. Qed.

Example int_of_fullwidth_sign : py_int (JStr "＋2") = None.
Proof. vm_compute. reflexivity. Qed.

(** So [load_state] drops the record whose id is a digit behind U+001C, and
    files the record whose id is ARABIC-INDIC DIGIT TWO under 2, over the
    record that was there. *)
Example load_state_separator_id :
  let s := (load_state "/app"
              (fresh (demo_world
                        {[ DATA_FILE "/app" := JsonDoc separator_id_doc ]}))).2
  in
  tasks s !! 7 = Some (JObj [("id", JInt 7); ("title", JStr "first")])
  ∧ size (tasks s) = 1%nat.
Proof. vm_compute. done. Qed.

Example load_state_arabic_id :
  let s := (load_state "/app"
              (fresh (demo_world
                        {[ DATA_FILE "/app" := JsonDoc arabic_id_doc ]}))).2
  in
  tasks s !! 2 = Some (JObj [("id", JStr "٢"); ("title", JStr "second")])
  ∧ size (tasks s) = 1%nat.
Proof. vm_compute. done. Qed.

(** [int(2.5) == 2] and [int(-2.5) == -2]: 2.5 is 5 * 2^-1. *)
Example int_of_float_truncates :
  py_int (JFloat (S754_finite false 5 (-1))) = Some 2
  ∧ py_int (JFloat (S754_finite true 5 (-1))) = Some (-2).
Proof. split; reflexivity. Qed.

Example int_of_true : py_int (JBool true) = Some 1.
Proof. reflexivity. Qed.

Example int_of_null : py_int JNull = None.
Proof. reflexivity. Qed.

Example coerce_id_of_list : coerce_id (JArr [JInt 1]) = None.
Proof. reflexivity. Qed.

Example strip_keeps_inner_space : strip "  a b 	" = "a b".
Proof. reflexivity. Qed.

(** A no-break space before and an em space (U+2003) after. *)
Example strip_beyond_ascii :
  strip (char2 194 160 +:+ "a" +:+ char3 226 128 131) = "a".
Proof. reflexivity. Qed.

Example strip_blank_title : strip blank_title = "".
Proof. reflexivity. Qed.

Example isoformat_pads :
  isoformat {| year := 2024; month := 3; day := 9;
               hour := 7; minute := 5; second := 0 |} = "2024-03-09T07:05:00".
Proof. reflexivity. Qed.

Example data_file_path :
  DATA_FILE "/app" = "/app/tasks.json" ∧ DATA_FILE "" = "tasks.json".
Proof. split; reflexivity. Qed.

(* ===================================================================== *)
(** ** The monad and the storage adapter *)
(* ===================================================================== *)

Lemma save_tasks_returns path l w : (save_tasks path l w).1 = Return tt.
Proof.
  unfold save_tasks, try_except, json_dump, print.
  destruct (write_faults w !! path) as [[err|err]|]; reflexivity.
Qed.

Lemma save_tasks_eq path l w :
  save_tasks path l w = (Return tt, (save_tasks path l w).2).
Proof.
  pose proof (save_tasks_returns path l w) as H.
  destruct (save_tasks path l w) as [r w']; simpl in *. by subst.
Qed.

(** What [save_tasks] leaves behind, by the fault of the path. *)
Lemma save_tasks_world path l w :
  (save_tasks path l w).2 =
  match write_faults w !! path with
  | None => set_files (<[path := JsonDoc (JArr l)]> (files w)) w
  | Some (OpenFails err) =>
      set_stdout (stdout w ++ [msg_write_error path (Exception err)]) w
  | Some (WriteFails err) =>
      set_stdout (stdout w ++ [msg_write_error path (Exception err)])
                 (set_files (<[path := Corrupt]> (files w)) w)
  end.
Proof.
  unfold save_tasks, try_except, json_dump, print.
  destruct (write_faults w !! path) as [[err|err]|]; reflexivity.
Qed.

Lemma save_tasks_frame path l w :
  let w' := (save_tasks path l w).2 in
  write_faults w' = write_faults w ∧ mkdir_faults w' = mkdir_faults w
  ∧ dirs w' = dirs w ∧ clock w' = clock w ∧ ticks w' = ticks w.
Proof.
  simpl. rewrite save_tasks_world.
  destruct (write_faults w !! path) as [[err|err]|]; done.
Qed.

(** [load_tasks], by what the path holds. *)
Lemma load_tasks_eq path w :
  load_tasks path w =
  match files w !! path with
  | None => (Return [], w)
  | Some (JsonDoc (JArr items)) => (Return items, w)
  | Some (JsonDoc _) =>
      (Return [], set_stdout (stdout w ++ [msg_not_a_list path]) w)
  | Some Corrupt | Some (CsvDoc _) =>
      (Return [], set_stdout (stdout w ++ [msg_corrupt path]) w)
  | Some (Unreadable err) =>
      (Return [],
       set_stdout (stdout w ++ [msg_read_error path (Exception err)]) w)
  end.
Proof.
  unfold load_tasks, bind, path_exists, try_except, json_load, print, ret.
  destruct (files w !! path) as [[err| |doc|rows]|] eqn:E; simpl;
    rewrite ?E; simpl; try reflexivity.
  destruct doc; reflexivity.
Qed.

(* ===================================================================== *)
(** ** Keys, sorted keys and the list [persist] writes *)
(* ===================================================================== *)

Lemma elem_of_keys (m : gmap Z json) k : k ∈ keys m ↔ is_Some (m !! k).
Proof.
  unfold keys. rewrite list_elem_of_fmap. split.
  - intros [[k' t] [-> Hin]]. apply elem_of_map_to_list in Hin. by exists t.
  - intros [t Ht]. exists (k, t). split; [done|]. by apply elem_of_map_to_list.
Qed.

Lemma NoDup_keys (m : gmap Z json) : NoDup (keys m).
Proof. apply NoDup_fst_map_to_list. Qed.

Lemma keys_nil (m : gmap Z json) : keys m = [] → m = ∅.
Proof.
  intros H. apply map_eq. intros k. rewrite lookup_empty.
  destruct (m !! k) as [t|] eqn:E; [|done].
  assert (k ∈ keys m) as Hin by (apply elem_of_keys; eauto).
  rewrite H in Hin. by apply elem_of_nil in Hin.
Qed.

Lemma length_keys (m : gmap Z json) : length (keys m) = size m.
Proof. unfold keys. rewrite length_fmap. apply length_map_to_list. Qed.

Lemma sorted_keys_perm (m : gmap Z json) : sorted_keys m ≡ₚ keys m.
Proof. apply merge_sort_Permutation. Qed.

Lemma elem_of_sorted_keys (m : gmap Z json) k :
  k ∈ sorted_keys m ↔ is_Some (m !! k).
Proof. rewrite sorted_keys_perm. apply elem_of_keys. Qed.

Lemma NoDup_sorted_keys (m : gmap Z json) : NoDup (sorted_keys m).
Proof. rewrite sorted_keys_perm. apply NoDup_keys. Qed.

Lemma length_sorted_keys (m : gmap Z json) : length (sorted_keys m) = size m.
Proof. rewrite sorted_keys_perm. apply length_keys. Qed.

Lemma le_sorted_nodup_lt (l : list Z) :
  StronglySorted Z.le l → NoDup l → StronglySorted Z.lt l.
Proof.
  induction 1 as [|x l Hs IH Hall]; intros Hnd; [constructor|].
  apply NoDup_cons in Hnd as [Hx Hnd]. constructor; [auto|].
  rewrite Forall_forall in Hall |- *. intros y Hy.
  assert (x ≠ y) by (intros ->; apply Hx; by apply list_elem_of_In).
  specialize (Hall y Hy). lia.
Qed.

(** [sorted(tasks.keys())] is in strictly ascending order. *)
Lemma sorted_keys_ascending (m : gmap Z json) :
  StronglySorted Z.lt (sorted_keys m).
Proof.
  apply le_sorted_nodup_lt; [|apply NoDup_sorted_keys].
  unfold sorted_keys. apply StronglySorted_merge_sort; apply _.
Qed.

Lemma as_list_fmap (m : gmap Z json) :
  Forall2 (λ k t, m !! k = Some t) (sorted_keys m) (as_list m).
Proof.
  unfold as_list.
  assert (∀ k, k ∈ sorted_keys m → is_Some (m !! k)) as H
    by (intros k; apply elem_of_sorted_keys).
  induction (sorted_keys m) as [|k ks IH]; simpl; [constructor|].
  destruct (H k) as [t Ht]; [left|]. rewrite Ht. simpl.
  constructor; [done|]. apply IH. intros k' Hk'. apply H. by right.
Qed.

Lemma length_as_list (m : gmap Z json) : length (as_list m) = size m.
Proof.
  rewrite <- (Forall2_length _ _ _ (as_list_fmap m)).
  apply length_sorted_keys.
Qed.

Lemma elem_of_as_list (m : gmap Z json) t :
  t ∈ as_list m ↔ ∃ k, m !! k = Some t.
Proof.
  unfold as_list. rewrite list_elem_of_omap. split.
  - intros (k & _ & Hk). eauto.
  - intros [k Hk]. exists k. split; [|done].
    apply elem_of_sorted_keys. eauto.
Qed.

(** [max] of a non-empty list. *)
Lemma foldl_max_ge (l : list Z) x : x ≤ foldl Z.max x l.
Proof.
  revert x. induction l as [|y l IH]; intros x; simpl; [lia|].
  specialize (IH (Z.max x y)). lia.
Qed.

Lemma foldl_max_upper (l : list Z) x y : y ∈ l → y ≤ foldl Z.max x l.
Proof.
  revert x. induction l as [|z l IH]; intros x Hy; simpl.
  - by apply elem_of_nil in Hy.
  - apply elem_of_cons in Hy as [->|Hy]; [|by apply IH].
    pose proof (foldl_max_ge l (Z.max x z)). lia.
Qed.

Lemma foldl_max_elem (l : list Z) x : foldl Z.max x l ∈ x :: l.
Proof.
  revert x. induction l as [|z l IH]; intros x; simpl; [left|].
  specialize (IH (Z.max x z)).
  apply elem_of_cons in IH as [IH|IH]; [|by do 2 right].
  rewrite IH. destruct (Z.max_spec x z) as [[_ ->]|[_ ->]]; [right; left|left].
Qed.

(* ===================================================================== *)
(** ** Loading: the loop of [load_state] *)
(* ===================================================================== *)

Lemma set_tasks_id s : set_tasks (tasks s) s = s.
Proof. by destruct s. Qed.

Lemma index_records_snoc raw t m :
  index_records (raw ++ [t]) m =
  match coerce_id t with
  | Some tid => <[tid := t]> (index_records raw m)
  | None => index_records raw m
  end.
Proof. unfold index_records. by rewrite foldl_app. Qed.

Lemma filed_under_snoc k raw t :
  filed_under k (raw ++ [t]) =
  filed_under k raw ++ (if decide (coerce_id t = Some k) then [t] else []).
Proof.
  unfold filed_under. rewrite filter_app. by f_equal.
Qed.

Lemma filed_under_none k raw :
  Forall (λ t, coerce_id t ≠ Some k) raw → filed_under k raw = [].
Proof.
  unfold filed_under. induction 1 as [|t raw Ht _ IH]; [done|].
  by rewrite filter_cons_False.
Qed.

(** After the loop, a key holds the last record that coerces to it. *)
Lemma index_records_lookup raw m k :
  index_records raw m !! k =
  match last (filed_under k raw) with
  | Some t => Some t
  | None => m !! k
  end.
Proof.
  induction raw as [|t raw IH] using rev_ind; [done|].
  rewrite index_records_snoc, filed_under_snoc.
  destruct (coerce_id t) as [tid|] eqn:E.
  - destruct (decide (Some tid = Some k)) as [[= ->]|Hne].
    + by rewrite lookup_insert_eq, last_snoc.
    + rewrite lookup_insert_ne by congruence. by rewrite app_nil_r.
  - destruct (decide (None = Some k)); [done|]. by rewrite app_nil_r.
Qed.

Lemma index_records_keeps raw m k :
  is_Some (m !! k) → is_Some (index_records raw m !! k).
Proof.
  intros H. rewrite index_records_lookup.
  destruct (last (filed_under k raw)); eauto.
Qed.

Lemma index_records_size raw m :
  (size (index_records raw m) ≤ size m + length raw)%nat.
Proof.
  induction raw as [|t raw IH] using rev_ind; [simpl; lia|].
  rewrite index_records_snoc, length_app. simpl.
  destruct (coerce_id t) as [tid|]; [|lia].
  pose proof (map_size_insert tid t (index_records raw m)) as Hs.
  destruct (index_records raw m !! tid); simpl in Hs; unfold id in Hs; lia.
Qed.

Lemma index_records_app l1 l2 m :
  index_records (l1 ++ l2) m = index_records l2 (index_records l1 m).
Proof. unfold index_records. by rewrite foldl_app. Qed.

(** A record that coerces to a key already taken adds nothing to the size. *)
Lemma index_records_size_clash l1 t1 l2 t2 l3 k :
  coerce_id t1 = Some k → coerce_id t2 = Some k →
  (size (index_records (l1 ++ t1 :: l2 ++ t2 :: l3) ∅)
   < length (l1 ++ t1 :: l2 ++ t2 :: l3))%nat.
Proof.
  intros H1 H2.
  replace (l1 ++ t1 :: l2 ++ t2 :: l3)
    with (((l1 ++ [t1]) ++ l2) ++ [t2] ++ l3)
    by (by rewrite <- !app_assoc).
  rewrite (index_records_app _ ([t2] ++ l3)), (index_records_app [t2] l3).
  set (m2 := index_records ((l1 ++ [t1]) ++ l2) ∅).
  assert (is_Some (m2 !! k)) as [t Ht].
  { unfold m2. rewrite index_records_app. apply index_records_keeps.
    rewrite index_records_snoc, H1, lookup_insert_eq. eauto. }
  assert (size (index_records [t2] m2) = size m2) as Hsame.
  { unfold index_records. simpl. rewrite H2.
    apply map_size_insert_Some. eauto. }
  pose proof (index_records_size l3 (index_records [t2] m2)) as Hl3.
  pose proof (index_records_size ((l1 ++ [t1]) ++ l2) ∅) as Hm2.
  fold m2 in Hm2. rewrite map_size_empty in Hm2.
  rewrite !length_app in *. simpl in *. lia.
Qed.

Lemma index_records_filed raw k t :
  index_records raw ∅ !! k = Some t → coerce_id t = Some k.
Proof.
  rewrite index_records_lookup, lookup_empty.
  destruct (last (filed_under k raw)) as [t'|] eqn:E; [|done].
  intros [= ->]. apply last_Some_elem_of in E.
  unfold filed_under in E. by apply list_elem_of_filter in E as [? _].
Qed.

(** Indexing again the list [persist] writes gives the store back. *)
Lemma index_records_Forall2 (m : gmap Z json) ks ts acc j :
  (∀ k t, m !! k = Some t → coerce_id t = Some k) →
  Forall2 (λ k t, m !! k = Some t) ks ts →
  index_records ts acc !! j = if decide (j ∈ ks) then m !! j else acc !! j.
Proof.
  intros Hid H. revert acc.
  induction H as [|k t ks ts Hk _ IH]; intros acc.
  - by rewrite decide_False by apply not_elem_of_nil.
  - change (index_records (t :: ts) acc)
      with (index_records ts (match coerce_id t with
                              | Some tid => <[tid := t]> acc
                              | None => acc
                              end)).
    rewrite (Hid _ _ Hk), IH.
    destruct (decide (j ∈ ks)) as [Hin|Hnin].
    + rewrite decide_True; [done|by right].
    + destruct (decide (j = k)) as [->|Hne].
      * rewrite decide_True by left. by rewrite lookup_insert_eq.
      * rewrite decide_False; [by rewrite lookup_insert_ne|].
        intros [->|?]%elem_of_cons; done.
Qed.

Lemma index_records_as_list (m : gmap Z json) :
  (∀ k t, m !! k = Some t → coerce_id t = Some k) →
  index_records (as_list m) ∅ = m.
Proof.
  intros Hid. apply map_eq. intros j.
  rewrite (index_records_Forall2 m (sorted_keys m)); [|done|apply as_list_fmap].
  destruct (decide (j ∈ sorted_keys m)) as [|Hn]; [done|].
  rewrite lookup_empty. symmetry. apply eq_None_not_Some.
  by rewrite <- elem_of_sorted_keys.
Qed.

(** The counter after a load: one above the greatest key, 1 with no key. *)
Lemma id_after_spec (m : gmap Z json) :
  (m = ∅ ∧ id_after m = 1)
  ∨ (∃ top, is_Some (m !! top) ∧ (∀ k, is_Some (m !! k) → k ≤ top)
            ∧ id_after m = top + 1).
Proof.
  unfold id_after. destruct (keys m) as [|k ks] eqn:E.
  - left. split; [by apply keys_nil|done].
  - right. exists (foldl Z.max k ks). split_and!; [| |done].
    + apply elem_of_keys. rewrite E. apply foldl_max_elem.
    + intros j Hj. apply elem_of_keys in Hj. rewrite E in Hj.
      apply elem_of_cons in Hj as [->|Hj];
        [apply foldl_max_ge|by apply foldl_max_upper].
Qed.

Lemma id_after_above (m : gmap Z json) k : is_Some (m !! k) → k < id_after m.
Proof.
  intros Hk. destruct (id_after_spec m) as [[-> _]|(top & _ & Hle & ->)].
  - rewrite lookup_empty in Hk. by destruct Hk.
  - specialize (Hle k Hk). lia.
Qed.

Section Loading.
Variable script_dir : string.

Lemma load_loop raw s :
  for_each raw (λ t,
    match coerce_id t with
    | Some tid => ts <- get_tasks ;; put_tasks (<[tid := t]> ts)
    | None => ret tt
    end) s
  = (Return tt, set_tasks (index_records raw (tasks s)) s).
Proof.
  revert s. induction raw as [|t raw IH]; intros s; simpl.
  - unfold ret. by rewrite set_tasks_id.
  - unfold bind at 1.
    destruct (coerce_id t) as [tid|] eqn:E.
    + unfold bind at 1, get_tasks, put_tasks. rewrite IH.
      unfold index_records. simpl. by rewrite ?E.
    + unfold ret at 1. rewrite IH. unfold index_records. simpl. by rewrite ?E.
Qed.

Lemma load_state_run s0 raw w :
  load_tasks (DATA_FILE script_dir) (world s0) = (Return raw, w) →
  load_state script_dir s0 =
  (Return tt, {| tasks := index_records raw ∅;
                 next_id := id_after (index_records raw ∅);
                 world := w |}).
Proof.
  intros E. unfold load_state. unfold bind at 1. unfold io. rewrite E.
  cbv beta iota zeta. unfold bind at 1, put_tasks. cbv beta iota.
  unfold bind at 1. rewrite load_loop. cbv beta iota.
  unfold recalc_next_id, bind, get_tasks, id_after, put_next_id. simpl.
  destruct (keys (index_records raw ∅)); reflexivity.
Qed.

Lemma load_tasks_returns path w : ∃ raw, (load_tasks path w).1 = Return raw.
Proof.
  rewrite load_tasks_eq.
  destruct (files w !! path) as [[err| |doc|rows]|]; try destruct doc;
    simpl; eauto.
Qed.

(** [load_state] in one step: the records it reads, indexed. *)
Lemma load_state_eq s0 :
  ∃ raw, (load_tasks (DATA_FILE script_dir) (world s0)).1 = Return raw
  ∧ load_state script_dir s0 =
    (Return tt,
     {| tasks := index_records raw ∅;
        next_id := id_after (index_records raw ∅);
        world := (load_tasks (DATA_FILE script_dir) (world s0)).2 |}).
Proof.
  destruct (load_tasks_returns (DATA_FILE script_dir) (world s0)) as [raw E].
  exists raw. split; [done|]. apply load_state_run.
  destruct (load_tasks _ _) as [r w]. simpl in E. by subst.
Qed.

End Loading.

(* ===================================================================== *)
(** ** The operations, one step each *)
(* ===================================================================== *)

Section Operations.
Variable script_dir : string.

Lemma persist_eq s :
  persist script_dir s =
  (Return tt,
   set_world (save_tasks (DATA_FILE script_dir) (as_list (tasks s)) (world s)).2 s).
Proof.
  unfold persist, bind, get_tasks, io.
  by rewrite save_tasks_eq.
Qed.

Lemma add_task_eq title description done s :
  let w := world s in
  let task := task_record (next_id s) (isoformat (clock w (ticks w)))
                (isoformat (clock w (S (ticks w)))) title description done in
  let m := <[next_id s := task]> (tasks s) in
  add_task script_dir title description done s =
  (Return task,
   {| tasks := m; next_id := next_id s + 1;
      world := (save_tasks (DATA_FILE script_dir) (as_list m)
                  (set_ticks (S (S (ticks w))) w)).2 |}).
Proof.
  cbv zeta. unfold add_task.
  unfold bind at 1, get_next_id. unfold bind at 1, io, now_iso.
  unfold bind at 1, datetime_now, ret at 1. cbv beta iota zeta.
  unfold bind at 1. unfold bind at 1, ret at 1. cbv beta iota zeta.
  unfold bind at 1, get_tasks. unfold bind at 1, put_tasks.
  unfold bind at 1, put_next_id. unfold bind at 1.
  rewrite persist_eq. reflexivity.
Qed.

Lemma edit_task_absent task_id title description done s :
  tasks s !! task_id = None →
  edit_task script_dir task_id title description done s = (Return false, s).
Proof.
  intros H. unfold edit_task, bind at 1, get_tasks. by rewrite H.
Qed.

Lemma assign_field_eq task_id k v s d :
  tasks s !! task_id = Some (JObj d) →
  assign_field task_id k v s =
  (Return tt, set_tasks (<[task_id := JObj (dict_set k v d)]> (tasks s)) s).
Proof.
  intros H. unfold assign_field, bind, get_tasks. by rewrite H.
Qed.

Lemma edit_task_present task_id title description done s f d :
  tasks s !! task_id = Some (JObj (f :: d)) →
  let w := world s in
  let t' := JObj (edited (f :: d) title description done
                     (isoformat (clock w (ticks w)))) in
  let m := <[task_id := t']> (tasks s) in
  edit_task script_dir task_id title description done s =
  (Return true,
   {| tasks := m; next_id := next_id s;
      world := (save_tasks (DATA_FILE script_dir) (as_list m)
                  (set_ticks (S (ticks w)) w)).2 |}).
Proof.
  intros H. cbv zeta. unfold edit_task, bind at 1, get_tasks. rewrite H.
  cbn [truthy negb].
  unfold bind at 1. erewrite assign_field_eq by exact H.
  unfold bind at 1. erewrite assign_field_eq by apply lookup_insert_eq.
  unfold bind at 1. erewrite assign_field_eq by apply lookup_insert_eq.
  unfold bind at 1, io, now_iso, bind at 1, datetime_now, ret at 1.
  cbv beta iota zeta.
  unfold bind at 1. erewrite assign_field_eq by apply lookup_insert_eq.
  unfold bind at 1. rewrite persist_eq. unfold ret.
  cbn [tasks set_tasks set_world world next_id].
  by rewrite !insert_insert_eq.
Qed.

Lemma delete_task_present task_id s :
  is_Some (tasks s !! task_id) →
  delete_task script_dir task_id s =
  (Return true,
   {| tasks := delete task_id (tasks s); next_id := next_id s;
      world := (save_tasks (DATA_FILE script_dir)
                  (as_list (delete task_id (tasks s))) (world s)).2 |}).
Proof.
  intros H. unfold delete_task, bind at 1, get_tasks.
  rewrite bool_decide_true by done.
  unfold bind at 1, put_tasks. unfold bind at 1. by rewrite persist_eq.
Qed.

Lemma delete_task_absent task_id s :
  tasks s !! task_id = None →
  delete_task script_dir task_id s = (Return false, s).
Proof.
  intros H. unfold delete_task, bind at 1, get_tasks.
  rewrite bool_decide_false; [done|]. rewrite H. by intros [? ?].
Qed.

End Operations.

(* ===================================================================== *)
(** ** The exporters, one step each *)
(* ===================================================================== *)

Lemma row_of_dict d names :
  row_of (JObj d) names = Some (cell (JObj d) <$> names).
Proof.
  induction names as [|k names IH]; [done|].
  simpl. by rewrite IH.
Qed.

Lemma row_of_non_dict t k names :
  (∀ d, t ≠ JObj d) → row_of t (k :: names) = None.
Proof. intros H. destruct t; try done. by destruct (H fields). Qed.

Lemma rows_of_dicts (ts : gmap Z json) (ks : list Z) :
  (∀ k, k ∈ ks → ∃ d, ts !! k = Some (JObj d)) →
  omap (λ k, ts !! k ≫= (λ t, row_of t fieldnames)) ks
  = (λ t, cell t <$> fieldnames) <$> omap (λ k, ts !! k) ks.
Proof.
  induction ks as [|k ks IH]; intros H; [done|].
  destruct (H k) as [d Hd]; [left|].
  cbn [omap list_omap]. rewrite Hd. cbn [mbind option_bind].
  rewrite row_of_dict. cbn [fmap list_fmap]. f_equal.
  apply IH. intros k' Hk'. apply H. by right.
Qed.

Lemma set_files_insert_id path f w :
  files w !! path = Some f → set_files (<[path := f]> (files w)) w = w.
Proof. intros H. rewrite insert_id by done. by destruct w. Qed.

Lemma set_world_id s : set_world (world s) s = s.
Proof. by destruct s. Qed.

Lemma csv_writerow_ok path row w rows :
  write_faults w !! path = None →
  files w !! path = Some (CsvDoc rows) →
  csv_writerow path row w =
  (Return tt, set_files (<[path := CsvDoc (rows ++ [row])]> (files w)) w).
Proof. intros Hf Hr. unfold csv_writerow. by rewrite Hf, Hr. Qed.

(** The loop of [export_csv]: one row per key, appended in order. *)
Lemma csv_loop path (ts : gmap Z json) (ks : list Z) s rows :
  write_faults (world s) !! path = None →
  files (world s) !! path = Some (CsvDoc rows) →
  (∀ k, k ∈ ks → ∃ d, ts !! k = Some (JObj d)) →
  for_each ks (λ tid,
    match ts !! tid ≫= (λ t, row_of t fieldnames) with
    | Some row => io (csv_writerow path row)
    | None => raise (Exception "object has no attribute 'get'")
    end) s
  = (Return tt,
     set_world
       (set_files
          (<[path := CsvDoc
               (rows ++ omap (λ k, ts !! k ≫= (λ t, row_of t fieldnames)) ks)]>
             (files (world s)))
          (world s)) s).
Proof.
  revert s rows. induction ks as [|k ks IH]; intros s rows Hf Hr Hd.
  - simpl. rewrite app_nil_r, set_files_insert_id by done.
    by rewrite set_world_id.
  - destruct (Hd k) as [d Hk]; [left|].
    cbn [for_each omap list_omap]. unfold bind at 1.
    rewrite Hk. cbn [mbind option_bind]. rewrite row_of_dict.
    unfold io at 1. rewrite (csv_writerow_ok _ _ _ rows) by done.
    rewrite IH with (rows := rows ++ [cell (JObj d) <$> fieldnames]).
    + cbn [world set_world files set_files tasks next_id].
      rewrite insert_insert_eq, <- app_assoc. reflexivity.
    + done.
    + cbn. by rewrite lookup_insert_eq.
    + intros k' Hk'. apply Hd. by right.
Qed.

Lemma bind_io_return {A B} (m : M World A) (k : A → M Sys B) s a w :
  m (world s) = (Return a, w) → bind (io m) k s = k a (set_world w s).
Proof. intros H. unfold bind, io. by rewrite H. Qed.

Lemma bind_io_raise {A B} (m : M World A) (k : A → M Sys B) s e w :
  m (world s) = (Raise e, w) → bind (io m) k s = (Raise e, set_world w s).
Proof. intros H. unfold bind, io. by rewrite H. Qed.

Lemma timestamp_eq w :
  timestamp w = (Return (strftime_compact (clock w (ticks w))),
                 set_ticks (S (ticks w)) w).
Proof. reflexivity. Qed.

Section Exporters.
Variable script_dir : string.

Lemma ensure_export_dir_ok w :
  mkdir_faults w !! EXPORT_DIR script_dir = None →
  ensure_export_dir script_dir w =
  (Return tt, set_dirs ({[EXPORT_DIR script_dir]} ∪ dirs w) w).
Proof. intros H. unfold ensure_export_dir, makedirs. by rewrite H. Qed.

Lemma ensure_export_dir_fails w err :
  mkdir_faults w !! EXPORT_DIR script_dir = Some err →
  ensure_export_dir script_dir w = (Raise (Exception err), w).
Proof. intros H. unfold ensure_export_dir, makedirs. by rewrite H. Qed.

Lemma export_json_no_dir s err :
  mkdir_faults (world s) !! EXPORT_DIR script_dir = Some err →
  export_json script_dir s = (Raise (Exception err), s).
Proof.
  intros H. unfold export_json.
  erewrite bind_io_raise by by apply ensure_export_dir_fails.
  by rewrite set_world_id.
Qed.

Lemma export_json_eq s :
  mkdir_faults (world s) !! EXPORT_DIR script_dir = None →
  export_json script_dir s =
  (Return (export_path script_dir (world s) ".json"),
   set_world (save_tasks (export_path script_dir (world s) ".json")
                (as_list (tasks s))
                (export_started script_dir (world s))).2 s).
Proof.
  intros H. unfold export_json.
  erewrite bind_io_return by by apply ensure_export_dir_ok.
  erewrite bind_io_return by apply timestamp_eq.
  unfold bind at 1, get_tasks.
  erewrite bind_io_return by apply save_tasks_eq.
  by destruct s.
Qed.

Lemma export_csv_no_dir s err :
  mkdir_faults (world s) !! EXPORT_DIR script_dir = Some err →
  export_csv script_dir s = (Raise (Exception err), s).
Proof.
  intros H. unfold export_csv.
  erewrite bind_io_raise by by apply ensure_export_dir_fails.
  by rewrite set_world_id.
Qed.

Lemma export_csv_no_open s err :
  mkdir_faults (world s) !! EXPORT_DIR script_dir = None →
  write_faults (world s) !! export_path script_dir (world s) ".csv"
    = Some (OpenFails err) →
  export_csv script_dir s =
  (Raise (Exception err), set_world (export_started script_dir (world s)) s).
Proof.
  intros H Hw. unfold export_csv.
  erewrite bind_io_return by by apply ensure_export_dir_ok.
  erewrite bind_io_return by apply timestamp_eq.
  erewrite bind_io_raise; [by destruct s|].
  unfold csv_open. wsimpl. unfold export_path in Hw. by rewrite Hw.
Qed.

Lemma export_csv_no_write s err :
  mkdir_faults (world s) !! EXPORT_DIR script_dir = None →
  write_faults (world s) !! export_path script_dir (world s) ".csv"
    = Some (WriteFails err) →
  export_csv script_dir s =
  (Raise (Exception err),
   set_world
     (set_files (<[export_path script_dir (world s) ".csv" := CsvDoc []]>
                   (files (world s)))
        (export_started script_dir (world s))) s).
Proof.
  intros H Hw. unfold export_csv.
  erewrite bind_io_return by by apply ensure_export_dir_ok.
  erewrite bind_io_return by apply timestamp_eq.
  unfold export_path in Hw.
  erewrite bind_io_return; [|unfold csv_open; wsimpl; by rewrite Hw].
  erewrite bind_io_raise; [by destruct s|].
  unfold csv_writerow. wsimpl. by rewrite Hw.
Qed.

Lemma export_csv_eq s :
  (∀ k t, tasks s !! k = Some t → ∃ d, t = JObj d) →
  mkdir_faults (world s) !! EXPORT_DIR script_dir = None →
  write_faults (world s) !! export_path script_dir (world s) ".csv" = None →
  export_csv script_dir s =
  (Return (export_path script_dir (world s) ".csv"),
   set_world
     (set_files
        (<[export_path script_dir (world s) ".csv" :=
             CsvDoc ((JStr <$> fieldnames) :: csv_rows (tasks s))]>
           (files (world s)))
        (export_started script_dir (world s))) s).
Proof.
  intros Hd H Hw. unfold export_csv.
  assert (∀ k, k ∈ sorted_keys (tasks s) → ∃ d, tasks s !! k = Some (JObj d))
    as Hks.
  { intros k [t Ht]%elem_of_sorted_keys. destruct (Hd k t Ht) as [d ->]. eauto. }
  erewrite bind_io_return by by apply ensure_export_dir_ok.
  erewrite bind_io_return by apply timestamp_eq.
  unfold export_path in *.
  erewrite bind_io_return; [|unfold csv_open; wsimpl; by rewrite Hw].
  erewrite bind_io_return;
    [|apply (csv_writerow_ok _ _ _ []); wsimpl; [done|by rewrite lookup_insert_eq]].
  unfold bind at 1, get_tasks. unfold bind at 1.
  rewrite (csv_loop _ _ _ _ [JStr <$> fieldnames]).
  - unfold ret, export_started, csv_rows, as_list.
    wsimpl.
    rewrite !insert_insert_eq, rows_of_dicts by done. reflexivity.
  - done.
  - wsimpl. by rewrite lookup_insert_eq.
  - done.
Qed.

End Exporters.

(* ===================================================================== *)
(** ** Records: ids and fields *)
(* ===================================================================== *)

Lemma dict_get_set_eq k v d : dict_get k (dict_set k v d) = Some v.
Proof.
  induction d as [|[k' v'] d IH]; simpl.
  - by rewrite String.eqb_refl.
  - destruct (String.eqb k k') eqn:E; simpl; rewrite ?String.eqb_refl, ?E; auto.
Qed.

Lemma dict_get_set_ne k k' v d :
  k ≠ k' → dict_get k (dict_set k' v d) = dict_get k d.
Proof.
  intros Hne. induction d as [|[k'' v''] d IH]; simpl.
  - destruct (String.eqb k k') eqn:E; [|done].
    by apply String.eqb_eq in E.
  - destruct (String.eqb k' k'') eqn:E; simpl.
    + apply String.eqb_eq in E as <-.
      destruct (String.eqb k k') eqn:E'; [|done].
      by apply String.eqb_eq in E'.
    + by rewrite IH.
Qed.

Lemma dict_get_set_is_Some k k' v d :
  is_Some (dict_get k d) → is_Some (dict_get k (dict_set k' v d)).
Proof.
  intros H. destruct (decide (k = k')) as [->|Hne].
  - rewrite dict_get_set_eq. eauto.
  - by rewrite dict_get_set_ne.
Qed.

Lemma coerce_id_dict t k : coerce_id t = Some k → ∃ f d, t = JObj (f :: d).
Proof.
  unfold coerce_id. destruct t as [| | | | | |[|f d]]; try done. eauto.
Qed.

Lemma coerce_id_edited d title description done u :
  coerce_id (JObj (edited d title description done u)) = coerce_id (JObj d).
Proof.
  unfold coerce_id, edited. simpl. by rewrite !dict_get_set_ne.
Qed.

Lemma coerce_id_task_record n date u title description done :
  coerce_id (task_record n date u title description done) = Some n.
Proof. reflexivity. Qed.

Lemma has_fields_task_record n date u title description done :
  has_fields fieldnames (task_record n date u title description done).
Proof.
  intros k Hk. unfold fieldnames in Hk.
  repeat (apply elem_of_cons in Hk as [->|Hk]; [simpl; eauto|]).
  by apply elem_of_nil in Hk.
Qed.

Lemma has_fields_edited names d title description done u :
  has_fields names (JObj d) →
  has_fields names (JObj (edited d title description done u)).
Proof.
  intros H k Hk. specialize (H k Hk). simpl in *. unfold edited.
  by do 4 apply dict_get_set_is_Some.
Qed.

(** What [edit_task] leaves in the record: the four fields it assigns, and
    every other field as it was. *)
Lemma edited_fields d title description done u :
  let d' := edited d title description done u in
  dict_get "title" d' = Some (JStr (strip title))
  ∧ dict_get "description" d' = Some (JStr (strip description))
  ∧ dict_get "done" d' = Some (JBool done)
  ∧ dict_get "updated_at" d' = Some (JStr u)
  ∧ ∀ k, k ∉ ["title"; "description"; "done"; "updated_at"] →
         dict_get k d' = dict_get k d.
Proof.
  cbv zeta. unfold edited. split_and!.
  - rewrite 3!dict_get_set_ne by done. apply dict_get_set_eq.
  - rewrite 2!dict_get_set_ne by done. apply dict_get_set_eq.
  - rewrite dict_get_set_ne by done. apply dict_get_set_eq.
  - apply dict_get_set_eq.
  - intros k Hk. rewrite !dict_get_set_ne; [done|..];
      intros ->; apply Hk; set_solver.
Qed.

(* ===================================================================== *)
(** ** Sessions keep the store in order *)
(* ===================================================================== *)

Section Sessions.
Variable script_dir : string.

Lemma store_ok_load s0 s :
  load_state script_dir s0 = (Return tt, s) → store_ok s.
Proof.
  intros H. destruct (load_state_eq script_dir s0) as (raw & _ & E).
  rewrite E in H. injection H as <-. split; simpl.
  - apply index_records_filed.
  - apply id_after_above.
Qed.

(** Where the records of the store come from after one command. *)
Lemma run_command_tasks s c s' :
  store_ok s → run_command script_dir c s = (Return tt, s') →
  next_id s ≤ next_id s' ∧
  ∀ k t', tasks s' !! k = Some t' →
    (∃ t, tasks s !! k = Some t ∧
       (t' = t ∨ ∃ d title description done u,
                   t = JObj d ∧ t' = JObj (edited d title description done u)))
    ∨ (k = next_id s ∧ next_id s' = next_id s + 1 ∧
       ∃ date u title description done,
         t' = task_record k date u title description done).
Proof.
  intros [Hid Hlt] Hrun. destruct c as [title description done
    |task_id title description done|task_id| |]; unfold run_command in Hrun.
  - unfold bind at 1 in Hrun. rewrite add_task_eq in Hrun.
    injection Hrun as <-. simpl. split; [lia|]. intros k t' Hk.
    destruct (decide (k = next_id s)) as [->|Hne].
    + rewrite lookup_insert_eq in Hk. injection Hk as <-. right. eauto 10.
    + rewrite lookup_insert_ne in Hk by done. left. eauto.
  - unfold bind at 1 in Hrun.
    destruct (tasks s !! task_id) as [t|] eqn:E.
    + destruct (coerce_id_dict _ _ (Hid _ _ E)) as (f & d & ->).
      rewrite (edit_task_present _ _ _ _ _ _ f d) in Hrun by done.
      injection Hrun as <-. simpl. split; [lia|]. intros k t' Hk.
      left. destruct (decide (k = task_id)) as [->|Hne].
      * rewrite lookup_insert_eq in Hk. injection Hk as <-.
        exists (JObj (f :: d)). split; [done|]. right. eauto 10.
      * rewrite lookup_insert_ne in Hk by done. eauto.
    + rewrite edit_task_absent in Hrun by done. injection Hrun as <-.
      split; [lia|]. eauto.
  - unfold bind at 1 in Hrun.
    destruct (tasks s !! task_id) as [t|] eqn:E.
    + rewrite delete_task_present in Hrun by eauto.
      injection Hrun as <-. simpl. split; [lia|]. intros k t' Hk.
      apply lookup_delete_Some in Hk as [_ Hk]. eauto.
    + rewrite delete_task_absent in Hrun by done. injection Hrun as <-.
      split; [lia|]. eauto.
  - unfold bind at 1 in Hrun.
    destruct (mkdir_faults (world s) !! EXPORT_DIR script_dir) as [err|] eqn:E.
    + by rewrite (export_json_no_dir _ _ err) in Hrun.
    + rewrite export_json_eq in Hrun by done. injection Hrun as <-.
      simpl. split; [lia|]. eauto.
  - unfold bind at 1 in Hrun.
    destruct (mkdir_faults (world s) !! EXPORT_DIR script_dir) as [err|] eqn:E.
    { by rewrite (export_csv_no_dir _ _ err) in Hrun. }
    destruct (write_faults (world s) !! export_path script_dir (world s) ".csv")
      as [[err|err]|] eqn:Ew.
    + by rewrite (export_csv_no_open _ _ err) in Hrun.
    + by rewrite (export_csv_no_write _ _ err) in Hrun.
    + rewrite export_csv_eq in Hrun; [|
        intros k t Hk; destruct (coerce_id_dict _ _ (Hid _ _ Hk)) as (?&?&->);
        eauto|done..].
      injection Hrun as <-. simpl. split; [lia|]. eauto.
Qed.

Lemma store_ok_step s c s' :
  store_ok s → run_command script_dir c s = (Return tt, s') → store_ok s'.
Proof.
  intros Hok Hrun.
  destruct (run_command_tasks s c s' Hok Hrun) as [Hle Hfrom].
  destruct Hok as [Hid Hlt]. split.
  - intros k t' Hk.
    destruct (Hfrom k t' Hk) as [(t & Ht & [->|(d & ? & ? & ? & ? & -> & ->)])
                                |(-> & _ & ? & ? & ? & ? & ? & ->)].
    + eauto.
    + rewrite coerce_id_edited. eauto.
    + reflexivity.
  - intros k [t' Hk].
    destruct (Hfrom k t' Hk) as [(t & Ht & _)|(-> & Hn & _)]; [|lia].
    assert (k < next_id s) by eauto. lia.
Qed.

Lemma session_store_ok s : session script_dir s → store_ok s.
Proof.
  induction 1 as [s0 s H|s c s' _ IH H].
  - by eapply store_ok_load.
  - by eapply store_ok_step.
Qed.

Lemma later_session s s' :
  session script_dir s → later script_dir s s' → session script_dir s'.
Proof.
  intros Hs. induction 1 as [|s' c s'' _ IH H]; [done|].
  eapply session_step; eauto.
Qed.

(** The counter never goes down. *)
Lemma later_next_id s s' :
  session script_dir s → later script_dir s s' → next_id s ≤ next_id s'.
Proof.
  intros Hs. induction 1 as [|s' c s'' Hl IH H]; [lia|].
  pose proof (session_store_ok _ (later_session _ _ Hs Hl)) as Hok.
  destruct (run_command_tasks _ _ _ Hok H) as [Hle _]. lia.
Qed.

(** A record of a later store was in the earlier store under the same key,
    or it is a six-field task with a key the earlier counter had not
    reached. *)
Lemma later_origin s s' k t' :
  session script_dir s → later script_dir s s' →
  tasks s' !! k = Some t' →
  is_Some (tasks s !! k) ∨ (next_id s ≤ k ∧ has_fields fieldnames t').
Proof.
  intros Hs Hl. revert k t'.
  induction Hl as [|s' c s'' Hl IH H]; intros k t' Hk; [eauto|].
  pose proof (session_store_ok _ (later_session _ _ Hs Hl)) as Hok.
  destruct (run_command_tasks _ _ _ Hok H) as [_ Hfrom].
  destruct (Hfrom k t' Hk) as [(t & Ht & [->|(d & ? & ? & ? & ? & -> & ->)])
                              |(-> & _ & ? & ? & ? & ? & ? & ->)].
  - eauto.
  - destruct (IH _ _ Ht) as [?|[? Hf]]; [by left|right].
    split; [done|]. by apply has_fields_edited.
  - right. split; [by apply later_next_id|apply has_fields_task_record].
Qed.

(** Six-field stores stay six-field stores. *)
Lemma later_has_fields s s' :
  session script_dir s → later script_dir s s' →
  (∀ k t, tasks s !! k = Some t → has_fields fieldnames t) →
  ∀ k t, tasks s' !! k = Some t → has_fields fieldnames t.
Proof.
  intros Hs Hl Hall.
  induction Hl as [|s' c s'' Hl IH H]; [done|]. intros k t' Hk.
  pose proof (session_store_ok _ (later_session _ _ Hs Hl)) as Hok.
  destruct (run_command_tasks _ _ _ Hok H) as [_ Hfrom].
  destruct (Hfrom k t' Hk) as [(t & Ht & [->|(d & ? & ? & ? & ? & -> & ->)])
                              |(-> & _ & ? & ? & ? & ? & ? & ->)].
  - eauto.
  - apply has_fields_edited. eauto.
  - apply has_fields_task_record.
Qed.

End Sessions.

(* ===================================================================== *)
(** ** The storage adapter: loading *)
(* ===================================================================== *)

(** C2. For every path, [load_tasks] returns the parsed JSON array at that
    path, and it returns the empty list, without raising, when the file does
    not exist, when its content is not valid JSON and when the parsed JSON is
    not an array (and on any other read error). *)
Theorem load_tasks_total path w :
  (load_tasks path w).1 =
  Return match files w !! path with
         | Some (JsonDoc (JArr items)) => items (* the parsed array *)
         | None => []                           (* no such file *)
         | Some Corrupt => []                   (* not valid JSON *)
         | Some (JsonDoc _) => []               (* JSON, but not an array *)
         | Some (Unreadable _) => []            (* any other read error *)
         | Some (CsvDoc _) => []                (* CSV text is not JSON *)
         end.
Proof.
  rewrite load_tasks_eq.
  destruct (files w !! path) as [[err| |doc|rows]|]; try destruct doc; done.
Qed.

Lemma msg_corrupt_not_msg_not_a_list p q : msg_corrupt p ≠ msg_not_a_list q.
Proof. unfold msg_corrupt, msg_not_a_list. by intros [=]. Qed.

Lemma msg_read_error_not_others p e q :
  msg_read_error p e ≠ msg_corrupt q ∧ msg_read_error p e ≠ msg_not_a_list q.
Proof.
  unfold msg_read_error, msg_corrupt, msg_not_a_list.
  split; by intros [=].
Qed.

(** C7, the claim fails: where the file does not exist [load_tasks] returns
    the empty list and prints nothing at all. *)
Lemma load_tasks_missing_file_is_silent :
  files (demo_world ∅) !! "tasks.json" = None
  ∧ load_tasks "tasks.json" (demo_world ∅) = (Return [], demo_world ∅)
  ∧ ¬ ∃ msg, msg ∈ stdout (load_tasks "tasks.json" (demo_world ∅)).2.
Proof.
  split_and!; [done|done|].
  intros [msg Hmsg]. by apply elem_of_nil in Hmsg.
Qed.

(** C7, as amended. [load_tasks] always returns normally.  A missing file
    is silent; invalid JSON and JSON that is not an array each print one
    message; the two messages differ from each other and from the message
    of any other read error, whatever the path. *)
Theorem load_tasks_diagnostics path w :
  (∃ raw, (load_tasks path w).1 = Return raw)
  ∧ stdout (load_tasks path w).2 =
      stdout w ++
      match files w !! path with
      | None => []
      | Some Corrupt | Some (CsvDoc _) => [msg_corrupt path]
      | Some (JsonDoc (JArr _)) => []
      | Some (JsonDoc _) => [msg_not_a_list path]
      | Some (Unreadable err) => [msg_read_error path (Exception err)]
      end
  ∧ msg_corrupt path ≠ msg_not_a_list path
  ∧ ∀ e, msg_read_error path e ≠ msg_corrupt path
         ∧ msg_read_error path e ≠ msg_not_a_list path.
Proof.
  split_and!.
  - apply load_tasks_returns.
  - rewrite load_tasks_eq.
    destruct (files w !! path) as [[err| |doc|rows]|]; try destruct doc;
      simpl; by rewrite ?app_nil_r.
  - apply msg_corrupt_not_msg_not_a_list.
  - intros e. apply msg_read_error_not_others.
Qed.

(* ===================================================================== *)
(** ** The store: loading *)
(* ===================================================================== *)

(** C9. When the data file holds the array [raw], [load_state] files under
    each key the last record of [raw] that coerces to it, and prints and
    writes nothing.  So when two records coerce to the same id the later one
    replaces the earlier one, and the store has strictly fewer tasks than
    the file has records. *)
Theorem load_state_later_record_wins script_dir s0 raw :
  files (world s0) !! DATA_FILE script_dir = Some (JsonDoc (JArr raw)) →
  ∃ s, load_state script_dir s0 = (Return tt, s)
       ∧ world s = world s0
       ∧ (∀ k, tasks s !! k = last (filed_under k raw))
       ∧ (size (tasks s) ≤ length raw)%nat
       ∧ ∀ l1 t1 l2 t2 l3 k,
           raw = l1 ++ t1 :: l2 ++ t2 :: l3 →
           coerce_id t1 = Some k → coerce_id t2 = Some k →
           Forall (λ t, coerce_id t ≠ Some k) l3 →
           tasks s !! k = Some t2 ∧ (size (tasks s) < length raw)%nat.
Proof.
  intros Hfile.
  assert (load_tasks (DATA_FILE script_dir) (world s0) = (Return raw, world s0))
    as Hload by (by rewrite load_tasks_eq, Hfile).
  eexists. split; [by apply load_state_run|]. simpl.
  assert (∀ k, index_records raw ∅ !! k = last (filed_under k raw)) as Hlast.
  { intros k. rewrite index_records_lookup, lookup_empty.
    by destruct (last _). }
  split_and!; [done|done| |].
  - pose proof (index_records_size raw ∅) as H.
    by rewrite map_size_empty in H.
  - intros l1 t1 l2 t2 l3 k -> H1 H2 Hl3. split.
    + rewrite Hlast.
      replace (l1 ++ t1 :: l2 ++ t2 :: l3)
        with ((l1 ++ t1 :: l2) ++ t2 :: l3) by (by rewrite <- app_assoc).
      unfold filed_under. rewrite filter_app, filter_cons_True by done.
      fold (filed_under k l3). rewrite filed_under_none by done.
      by rewrite last_snoc.
    + by eapply index_records_size_clash.
Qed.

(** The legacy file: the number 2 and the string "2" claim the same key. *)
Lemma load_state_later_record_wins_witness :
  ∃ s, load_state "/app"
         (fresh (demo_world {[ DATA_FILE "/app" := JsonDoc legacy_doc ]}))
       = (Return tt, s)
       ∧ tasks s !! 2 = Some (JObj [("id", JStr "2"); ("title", JStr "second")])
       ∧ (size (tasks s) < 3)%nat.
Proof.
  destruct (load_state_later_record_wins "/app"
              (fresh (demo_world {[ DATA_FILE "/app" := JsonDoc legacy_doc ]}))
              [JObj [("id", JInt 7)];
               JObj [("id", JInt 2); ("title", JStr "first")];
               JObj [("id", JStr "2"); ("title", JStr "second")]])
    as (s & Hs & _ & _ & _ & Hclash); [reflexivity|].
  exists s. split; [exact Hs|].
  apply (Hclash [JObj [("id", JInt 7)]]
                (JObj [("id", JInt 2); ("title", JStr "first")]) []
                (JObj [("id", JStr "2"); ("title", JStr "second")]) [] 2);
    [reflexivity|reflexivity|reflexivity|constructor].
Defined.

(* ===================================================================== *)
(** ** The store: adding and editing *)
(* ===================================================================== *)

Lemma string_length_app (s1 s2 : string) :
  String.length (s1 +:+ s2) = (String.length s1 + String.length s2)%nat.
Proof. induction s1 as [|a s1 IH]; simpl; [done|]. by rewrite IH. Qed.

(** A whitespace character at the front is the one [lstrip] drops: no
    encoding in [whitespace] is a prefix of another. *)
Lemma without_any_whitespace c r :
  c ∈ whitespace →
  without_any whitespace (c +:+ r) = Some r ∧ (0 < String.length c)%nat.
Proof.
  unfold whitespace. cbn [fmap list_fmap app]. intros H.
  repeat (apply elem_of_cons in H as [->|H]; [split; [reflexivity|simpl; lia]|]).
  by apply elem_of_nil in H.
Qed.

Lemma drop_leading_whitespace s n :
  only_whitespace s → (String.length s ≤ n)%nat →
  drop_leading whitespace n s = "".
Proof.
  intros H. revert n. induction H as [|c s Hc _ IH]; intros n Hn.
  - by destruct n.
  - destruct (without_any_whitespace c s Hc) as [Hdrop Hlen].
    rewrite string_length_app in Hn.
    destruct n as [|n]; [lia|].
    cbn [drop_leading]. rewrite Hdrop. apply IH. lia.
Qed.

Lemma strip_whitespace s : only_whitespace s → strip s = "".
Proof.
  intros H. unfold strip, lstrip. by rewrite drop_leading_whitespace.
Qed.

(** What [persist] leaves in the data file when it can be written. *)
Lemma save_tasks_file path l w :
  write_faults w !! path = None →
  files (save_tasks path l w).2 !! path = Some (JsonDoc (JArr l)).
Proof.
  intros H. rewrite save_tasks_world, H. simpl. apply lookup_insert_eq.
Qed.

(** C10. [add_task] does not insist on a title: for every title made of
    whitespace only it returns normally, stores under the next id a task
    whose title is the empty string, and [persist] writes that task to the
    data file (when the file can be written). *)
Theorem add_task_blank_title script_dir title description done s :
  only_whitespace title →
  ∃ task s',
    add_task script_dir title description done s = (Return task, s')
    ∧ getitem task "title" = Some (JStr "")
    ∧ tasks s' !! next_id s = Some task
    ∧ (write_faults (world s) !! DATA_FILE script_dir = None →
       ∃ written,
         files (world s') !! DATA_FILE script_dir = Some (JsonDoc (JArr written))
         ∧ task ∈ written).
Proof.
  intros Hblank. eexists _, _. split; [apply add_task_eq|]. simpl.
  split_and!.
  - by rewrite (strip_whitespace title).
  - apply lookup_insert_eq.
  - intros Hw. eexists. split; [by apply save_tasks_file|].
    apply elem_of_as_list. exists (next_id s). apply lookup_insert_eq.
Qed.

Lemma add_task_blank_title_witness :
  ∃ task s',
    add_task "/app" blank_title "sin titulo" false (fresh (demo_world ∅))
    = (Return task, s')
    ∧ getitem task "title" = Some (JStr "")
    ∧ tasks s' !! 1 = Some task
    ∧ (write_faults (demo_world ∅) !! DATA_FILE "/app" = None →
       ∃ written,
         files (world s') !! DATA_FILE "/app" = Some (JsonDoc (JArr written))
         ∧ task ∈ written).
Proof.
  apply (add_task_blank_title "/app" blank_title "sin titulo" false
           (fresh (demo_world ∅))).
  apply (only_whitespace_cons (char1 32));
    [apply (bool_decide_unpack _); vm_compute; exact I|].
  apply (only_whitespace_cons (char2 194 160));
    [apply (bool_decide_unpack _); vm_compute; exact I|].
  apply (only_whitespace_cons (char1 9) "");
    [apply (bool_decide_unpack _); vm_compute; exact I|].
  apply only_whitespace_nil.
Defined.

(** C4. For an id absent from the store [edit_task] returns [False] and
    leaves store and world as they were: nothing modified, nothing written,
    nothing printed, the clock not read.  For an id present in the store of
    a running session it returns [True]; the record then holds the stripped
    title and description, the given flag and the current time as
    [updated_at], its other fields and the other records are as before, and
    the result is the state [persist] leaves for that store. *)
Theorem edit_task_spec script_dir s task_id title description done :
  (tasks s !! task_id = None →
   edit_task script_dir task_id title description done s = (Return false, s))
  ∧ (session script_dir s →
     ∀ t, tasks s !! task_id = Some t →
     ∃ t' s',
       edit_task script_dir task_id title description done s = (Return true, s')
       ∧ tasks s' = <[task_id := t']> (tasks s)
       ∧ next_id s' = next_id s
       ∧ getitem t' "title" = Some (JStr (strip title))
       ∧ getitem t' "description" = Some (JStr (strip description))
       ∧ getitem t' "done" = Some (JBool done)
       ∧ getitem t' "updated_at"
         = Some (JStr (isoformat (clock (world s) (ticks (world s)))))
       ∧ (∀ k, k ∉ ["title"; "description"; "done"; "updated_at"] →
               getitem t' k = getitem t k)
       ∧ persist script_dir
           {| tasks := <[task_id := t']> (tasks s); next_id := next_id s;
              world := set_ticks (S (ticks (world s))) (world s) |}
         = (Return tt, s')
       ∧ (write_faults (world s) !! DATA_FILE script_dir = None →
          files (world s') !! DATA_FILE script_dir
          = Some (JsonDoc (JArr (as_list (tasks s')))))).
Proof.
  split; [apply edit_task_absent|].
  intros Hs t Ht.
  destruct (session_store_ok _ _ Hs) as [Hid _].
  destruct (coerce_id_dict _ _ (Hid _ _ Ht)) as (f & d & ->).
  eexists _, _. split; [by apply edit_task_present|]. simpl.
  destruct (edited_fields (f :: d) title description done
              (isoformat (clock (world s) (ticks (world s)))))
    as (H1 & H2 & H3 & H4 & H5).
  split_and!; try done.
  - by rewrite persist_eq.
  - intros Hw. by apply save_tasks_file.
Qed.

Lemma two_tasks_session : session "/app" two_tasks_state.
Proof.
  apply (session_load "/app"
           (fresh (demo_world {[ DATA_FILE "/app" := JsonDoc two_tasks_doc ]}))).
  vm_compute. reflexivity.
Qed.

Lemma edit_task_spec_witness :
  edit_task "/app" 999 "x" "y" true two_tasks_state
  = (Return false, two_tasks_state)
  ∧ ∃ t' s',
      edit_task "/app" 2 " Pan integral " "" false two_tasks_state
      = (Return true, s')
      ∧ tasks s' !! 2 = Some t'
      ∧ getitem t' "title" = Some (JStr "Pan integral")
      ∧ getitem t' "date" = Some (JStr "2024-05-01T08:00:00").
Proof.
  split.
  - apply (proj1 (edit_task_spec "/app" two_tasks_state 999 "x" "y" true)).
    vm_compute. reflexivity.
  - destruct (proj2 (edit_task_spec "/app" two_tasks_state 2
                       " Pan integral " "" false)
                two_tasks_session
                (JObj [("id", JInt 2); ("date", JStr "2024-05-01T08:00:00");
                       ("title", JStr "Pan"); ("description", JStr "");
                       ("done", JBool true);
                       ("updated_at", JStr "2024-05-01T08:00:00")]))
      as (t' & s' & Hrun & Htasks & _ & Htitle & _ & _ & _ & Hother & _).
    + vm_compute. reflexivity.
    + exists t', s'. split_and!; [exact Hrun| |exact Htitle|].
      * rewrite Htasks. apply lookup_insert_eq.
      * rewrite Hother; [vm_compute; reflexivity|].
        repeat (apply not_elem_of_cons; split; [done|]). apply not_elem_of_nil.
Defined.

(* ===================================================================== *)
(** ** Round trip *)
(* ===================================================================== *)






(* ===================================================================== *)
(** ** The fields of the persisted tasks *)
(* ===================================================================== *)

(** C5, the claim fails: a record that came from the data file with its id
    alone is written back by [persist] with its id alone. *)
Lemma legacy_record_persisted_without_fields :
  ∃ task s' written,
    add_task "/app" "Comprar pan" "" false legacy_state = (Return task, s')
    ∧ files (world s') !! DATA_FILE "/app" = Some (JsonDoc (JArr written))
    ∧ JObj [("id", JInt 7)] ∈ written
    ∧ ¬ has_fields fieldnames (JObj [("id", JInt 7)]).
Proof.
  eexists _, _, _. split; [vm_compute; reflexivity|].
  split; [vm_compute; reflexivity|]. split.
  - apply list_elem_of_In. simpl. auto.
  - intros H. destruct (H "title") as [v Hv]; [|discriminate Hv].
    apply list_elem_of_In. simpl. auto.
Qed.

Lemma coerce_id_has_id t k : coerce_id t = Some k → is_Some (getitem t "id").
Proof.
  unfold coerce_id. destruct (getitem t "id"); [eauto|done].
Qed.

(** C5, as amended. In a session, when the data file can be written,
    [persist] writes exactly the records of the store.  Each of them has an
    ["id"] field.  Each task that was not in the store as loaded (so that
    came from [add_task]) has all six fields.  If every record of the store
    as loaded has all six fields, so has every task written. *)
Theorem persisted_tasks_fields script_dir s0 s1 s :
  load_state script_dir s0 = (Return tt, s1) →
  later script_dir s1 s →
  write_faults (world s) !! DATA_FILE script_dir = None →
  ∃ s' written,
    persist script_dir s = (Return tt, s')
    ∧ files (world s') !! DATA_FILE script_dir = Some (JsonDoc (JArr written))
    ∧ (∀ t, t ∈ written ↔ ∃ k, tasks s !! k = Some t)
    ∧ (∀ t, t ∈ written → is_Some (getitem t "id"))
    ∧ (∀ k t, tasks s !! k = Some t → tasks s1 !! k = None →
              has_fields fieldnames t)
    ∧ ((∀ k t, tasks s1 !! k = Some t → has_fields fieldnames t) →
       ∀ t, t ∈ written → has_fields fieldnames t).
Proof.
  intros Hload Hlater Hw.
  assert (session script_dir s1) as Hs1 by (by eapply session_load).
  pose proof (later_session _ _ _ Hs1 Hlater) as Hs.
  destruct (session_store_ok _ _ Hs) as [Hid _].
  eexists _, _. split; [apply persist_eq|]. simpl.
  split; [by apply save_tasks_file|]. split_and!.
  - apply elem_of_as_list.
  - intros t [k Hk]%elem_of_as_list. eapply coerce_id_has_id; eauto.
  - intros k t Hk Hnew.
    destruct (later_origin _ _ _ _ _ Hs1 Hlater Hk) as [[? Hold]|[_ ?]];
      [congruence|done].
  - intros Hall t [k Hk]%elem_of_as_list.
    exact (later_has_fields script_dir s1 s Hs1 Hlater Hall k t Hk).
Qed.

Lemma persisted_tasks_fields_witness :
  ∃ s' written,
    persist "/app" legacy_after_add = (Return tt, s')
    ∧ files (world s') !! DATA_FILE "/app" = Some (JsonDoc (JArr written))
    ∧ (∀ t, t ∈ written → is_Some (getitem t "id"))
    ∧ (∀ t, tasks legacy_after_add !! 8 = Some t → has_fields fieldnames t).
Proof.
  destruct (persisted_tasks_fields "/app"
              (fresh (demo_world {[ DATA_FILE "/app" := JsonDoc legacy_doc ]}))
              legacy_state legacy_after_add)
    as (s' & written & H1 & H2 & _ & H3 & H4 & _).
  - vm_compute. reflexivity.
  - apply (later_step "/app" legacy_state legacy_state
             (Add "Comprar pan" "" false)); [apply later_refl|].
    vm_compute. reflexivity.
  - vm_compute. reflexivity.
  - exists s', written. split_and!; [exact H1|exact H2|exact H3|].
    intros t Ht. apply (H4 8 t Ht). vm_compute. reflexivity.
Defined.

(* ===================================================================== *)
(** ** Exceptions *)
(* ===================================================================== *)

(** C6, the claim fails: [export_csv] lets the exception through when the
    export directory cannot be made, and when its file cannot be opened; no
    message is printed in its place. *)
Lemma export_csv_propagates_failures :
  (∃ s, load_state "/app" (fresh no_export_dir_world) = (Return tt, s)
        ∧ export_csv "/app" s = (Raise (Exception "Permission denied"), s)
        ∧ stdout (world s) = [])
  ∧ (∃ s s', load_state "/app" (fresh no_csv_world) = (Return tt, s)
             ∧ export_csv "/app" s
               = (Raise (Exception "Disk quota exceeded"), s')
             ∧ stdout (world s') = []).
Proof.
  split.
  - eexists. split; [vm_compute; reflexivity|].
    split; vm_compute; reflexivity.
  - eexists _, _. split; [vm_compute; reflexivity|].
    split; vm_compute; reflexivity.
Qed.

(** C6, as amended. In every state of a session [load_state], [add_task],
    [edit_task], [delete_task] and [persist] return normally; a failure to
    write the data file is absorbed by [save_tasks] into one printed
    message.  [export_json] raises exactly when the export directory cannot
    be made (a failure to write its file is absorbed).  [export_csv] raises
    when the export directory cannot be made and when its file cannot be
    opened or written, and returns otherwise. *)
Theorem core_operations_exceptions script_dir s :
  session script_dir s →
  (∃ s', load_state script_dir s = (Return tt, s'))
  ∧ (∀ title description done,
       ∃ task s', add_task script_dir title description done s
                  = (Return task, s'))
  ∧ (∀ task_id title description done,
       ∃ r s', edit_task script_dir task_id title description done s
               = (Return r, s'))
  ∧ (∀ task_id, ∃ r s', delete_task script_dir task_id s = (Return r, s'))
  ∧ (∃ s', persist script_dir s = (Return tt, s')
           ∧ stdout (world s') =
             stdout (world s) ++
             match write_faults (world s) !! DATA_FILE script_dir with
             | None => []
             | Some (OpenFails err) | Some (WriteFails err) =>
                 [msg_write_error (DATA_FILE script_dir) (Exception err)]
             end)
  ∧ match mkdir_faults (world s) !! EXPORT_DIR script_dir with
    | Some err =>
        export_json script_dir s = (Raise (Exception err), s)
        ∧ export_csv script_dir s = (Raise (Exception err), s)
    | None =>
        (∃ s', export_json script_dir s
               = (Return (export_path script_dir (world s) ".json"), s'))
        ∧ match write_faults (world s)
                !! export_path script_dir (world s) ".csv" with
          | Some (OpenFails err) | Some (WriteFails err) =>
              (export_csv script_dir s).1 = Raise (Exception err)
          | None =>
              ∃ s', export_csv script_dir s
                    = (Return (export_path script_dir (world s) ".csv"), s')
          end
    end.
Proof.
  intros Hs. destruct (session_store_ok _ _ Hs) as [Hid _]. split_and!.
  - destruct (load_state_eq script_dir s) as (raw & _ & E). eauto.
  - intros. eexists _, _. apply add_task_eq.
  - intros task_id title description done.
    destruct (tasks s !! task_id) as [t|] eqn:E.
    + destruct (coerce_id_dict _ _ (Hid _ _ E)) as (f & d & ->).
      eexists _, _. by apply edit_task_present.
    + eexists _, _. by apply edit_task_absent.
  - intros task_id. destruct (tasks s !! task_id) as [t|] eqn:E.
    + eexists _, _. apply delete_task_present. eauto.
    + eexists _, _. by apply delete_task_absent.
  - eexists. split; [apply persist_eq|]. simpl. rewrite save_tasks_world.
    destruct (write_faults (world s) !! DATA_FILE script_dir) as [[err|err]|];
      simpl; by rewrite ?app_nil_r.
  - destruct (mkdir_faults (world s) !! EXPORT_DIR script_dir) as [err|] eqn:E.
    + split; [by apply export_json_no_dir|by apply export_csv_no_dir].
    + split; [eexists; by apply export_json_eq|].
      destruct (write_faults (world s) !! export_path script_dir (world s) ".csv")
        as [[err|err]|] eqn:Ew.
      * by rewrite (export_csv_no_open _ _ err).
      * by rewrite (export_csv_no_write _ _ err).
      * eexists. apply export_csv_eq; [|done..].
        intros k t Hk. destruct (coerce_id_dict _ _ (Hid _ _ Hk)) as (?&?&->).
        eauto.
Qed.

Lemma core_operations_exceptions_witness :
  (∃ task s', add_task "/app" " Huevos " "docena" false two_tasks_state
              = (Return task, s'))
  ∧ (∃ r s', delete_task "/app" 5 two_tasks_state = (Return r, s'))
  ∧ (∃ s', export_json "/app" two_tasks_state
           = (Return "/app/exports/tasks_20240517_093000.json", s')).
Proof.
  destruct (core_operations_exceptions "/app" two_tasks_state two_tasks_session)
    as (_ & Hadd & _ & Hdel & _ & Hexp).
  split_and!; [apply Hadd|apply Hdel|].
  change (mkdir_faults (world two_tasks_state) !! EXPORT_DIR "/app")
    with (@None string) in Hexp.
  destruct Hexp as [Hjson _]. exact Hjson.
Defined.

(* ===================================================================== *)
(** ** CSV export *)
(* ===================================================================== *)




(* ===================================================================== *)
(** ** Ids *)
(* ===================================================================== *)

Lemma add_task_id script_dir title description done s :
  ∃ task s',
    add_task script_dir title description done s = (Return task, s')
    ∧ getitem task "id" = Some (JInt (next_id s))
    ∧ tasks s' = <[next_id s := task]> (tasks s)
    ∧ next_id s' = next_id s + 1.
Proof. eexists _, _. split; [apply add_task_eq|]. done. Qed.

(** C1. Within a session ids are unique and never reused.
    (1) After a load the counter is one above the greatest id of the store,
        or 1 for an empty store.
    (2) The records of the store have distinct ids.
    (3) At any later point of the session [add_task] assigns an id that the
        store does not hold and that is above every id the store has held
        at any earlier point, deleted or not.
    (4) When the loaded store holds the ids 1 and 2 and no other, after
        [delete_task 1] the next [add_task] assigns the id 3.
    (5) From an empty loaded store, two [add_task] assign 1 and 2, and after
        [delete_task 1] the next [add_task] assigns 3. *)
Theorem ids_never_reused script_dir :
  (∀ s0 s, load_state script_dir s0 = (Return tt, s) →
     (tasks s = ∅ ∧ next_id s = 1)
     ∨ (∃ top, is_Some (tasks s !! top)
               ∧ (∀ k, is_Some (tasks s !! k) → k ≤ top)
               ∧ next_id s = top + 1))
  ∧ (∀ s k1 k2 t1 t2, session script_dir s →
       tasks s !! k1 = Some t1 → tasks s !! k2 = Some t2 →
       coerce_id t1 = coerce_id t2 → k1 = k2)
  ∧ (∀ s1 s2 title description done,
       session script_dir s1 → later script_dir s1 s2 →
       ∃ n task s3,
         add_task script_dir title description done s2 = (Return task, s3)
         ∧ getitem task "id" = Some (JInt n)
         ∧ tasks s2 !! n = None
         ∧ tasks s3 !! n = Some task
         ∧ ∀ k, is_Some (tasks s1 !! k) → k < n)
  ∧ (∀ s0 s title description done,
       load_state script_dir s0 = (Return tt, s) →
       (∀ k, is_Some (tasks s !! k) ↔ k = 1 ∨ k = 2) →
       ∃ s1 task s2,
         delete_task script_dir 1 s = (Return true, s1)
         ∧ add_task script_dir title description done s1 = (Return task, s2)
         ∧ getitem task "id" = Some (JInt 3))
  ∧ (∀ s0 s title description done,
       load_state script_dir s0 = (Return tt, s) →
       tasks s = ∅ →
       ∃ t1 s1 t2 s2 s3 t3 s4,
         add_task script_dir title description done s = (Return t1, s1)
         ∧ getitem t1 "id" = Some (JInt 1)
         ∧ add_task script_dir title description done s1 = (Return t2, s2)
         ∧ getitem t2 "id" = Some (JInt 2)
         ∧ delete_task script_dir 1 s2 = (Return true, s3)
         ∧ add_task script_dir title description done s3 = (Return t3, s4)
         ∧ getitem t3 "id" = Some (JInt 3)).
Proof.
  split_and!.
  - intros s0 s H. destruct (load_state_eq script_dir s0) as (raw & _ & E).
    rewrite E in H. injection H as <-. simpl. apply id_after_spec.
  - intros s k1 k2 t1 t2 Hs H1 H2 Heq.
    destruct (session_store_ok _ _ Hs) as [Hid _].
    rewrite (Hid _ _ H1), (Hid _ _ H2) in Heq. congruence.
  - intros s1 s2 title description done Hs1 Hl.
    pose proof (later_session _ _ _ Hs1 Hl) as Hs2.
    destruct (session_store_ok _ _ Hs1) as [_ Hlt1].
    destruct (session_store_ok _ _ Hs2) as [_ Hlt2].
    pose proof (later_next_id _ _ _ Hs1 Hl) as Hle.
    destruct (add_task_id script_dir title description done s2)
      as (task & s3 & Hrun & Hid & Htasks & _).
    exists (next_id s2), task, s3. split_and!; [done|done| | |].
    + apply eq_None_not_Some. intros Hin. specialize (Hlt2 _ Hin). lia.
    + rewrite Htasks. apply lookup_insert_eq.
    + intros k Hk. specialize (Hlt1 _ Hk). lia.
  - intros s0 s title description done Hload Hdom.
    assert (next_id s = 3) as Hnext.
    { destruct (load_state_eq script_dir s0) as (raw & _ & E).
      rewrite E in Hload. injection Hload as <-. simpl in *.
      destruct (id_after_spec (index_records raw ∅))
        as [[Hempty _]|(top & Htop & Hmax & ->)].
      - assert (is_Some (index_records raw ∅ !! 1)) as [? Hin]
          by (apply Hdom; auto).
        by rewrite Hempty, lookup_empty in Hin.
      - assert (2 ≤ top) by (apply Hmax, Hdom; auto).
        apply Hdom in Htop. lia. }
    eexists _, _, _.
    split; [apply delete_task_present; apply Hdom; auto|].
    split; [apply add_task_eq|]. simpl. by rewrite Hnext.
  - intros s0 s title description done Hload Hempty.
    assert (next_id s = 1) as Hnext.
    { destruct (load_state_eq script_dir s0) as (raw & _ & E).
      rewrite E in Hload. injection Hload as <-. simpl in *.
      destruct (id_after_spec (index_records raw ∅))
        as [[_ ->]|(top & [? Htop] & _)]; [done|].
      by rewrite Hempty, lookup_empty in Htop. }
    eexists _, _, _, _, _, _, _.
    split; [apply add_task_eq|]. simpl. rewrite Hnext.
    split; [done|]. split; [apply add_task_eq|]. simpl.
    split; [done|]. split.
    { apply delete_task_present. simpl.
      rewrite lookup_insert_ne by done. rewrite lookup_insert_eq. eauto. }
    split; [apply add_task_eq|]. done.
Qed.

Lemma ids_never_reused_witness :
  ∃ s1 task s2,
    delete_task "/app" 1 two_tasks_state = (Return true, s1)
    ∧ add_task "/app" "Huevos" "docena" false s1 = (Return task, s2)
    ∧ getitem task "id" = Some (JInt 3).
Proof.
  destruct (ids_never_reused "/app") as (_ & _ & _ & H & _).
  apply (H (fresh (demo_world {[ DATA_FILE "/app" := JsonDoc two_tasks_doc ]}))
           two_tasks_state).
  - vm_compute. reflexivity.
  - intros k. split.
    + intros [t Ht]. vm_compute in Ht.
      destruct k as [|[[]|[]|]|]; try discriminate Ht; auto.
    + intros [->| ->]; vm_compute; eauto.
Defined.

(* ===================================================================== *)
(** ** Further properties: the storage adapter *)
(* ===================================================================== *)

(** X1. [save_tasks] never raises.  When the path can be written,
    [load_tasks] afterwards returns the list that was saved, and nothing is
    printed.  When the file cannot be opened, one message is printed, the
    files are as before and [load_tasks] returns what it returned before.
    When the write breaks off, one message is printed, the file is left
    corrupt and [load_tasks] afterwards returns the empty list with the
    message for a corrupt file. *)
Theorem save_then_load path l w :
  let w' := (save_tasks path l w).2 in
  (save_tasks path l w).1 = Return tt
  ∧ match write_faults w !! path with
    | None =>
        load_tasks path w' = (Return l, w') ∧ stdout w' = stdout w
    | Some (OpenFails err) =>
        files w' = files w
        ∧ stdout w' = stdout w ++ [msg_write_error path (Exception err)]
        ∧ (load_tasks path w').1 = (load_tasks path w).1
    | Some (WriteFails err) =>
        stdout w' = stdout w ++ [msg_write_error path (Exception err)]
        ∧ load_tasks path w'
          = (Return [], set_stdout (stdout w' ++ [msg_corrupt path]) w')
    end.
Proof.
  cbv zeta. split; [apply save_tasks_returns|].
  rewrite save_tasks_world.
  destruct (write_faults w !! path) as [[err|err]|] eqn:E.
  - split_and!; [done|done|].
    rewrite !load_tasks_eq. simpl.
    destruct (files w !! path) as [[e| |doc|rows]|]; try destruct doc; done.
  - split; [done|]. rewrite load_tasks_eq. simpl.
    by rewrite lookup_insert_eq.
  - split; [|done]. rewrite load_tasks_eq. simpl.
    by rewrite lookup_insert_eq.
Qed.

(* ===================================================================== *)
(** ** Further properties: the operations of the store *)
(* ===================================================================== *)

Lemma size_delete_present (m : gmap Z json) k :
  is_Some (m !! k) → size (delete k m) = pred (size m).
Proof.
  intros [t Ht]. rewrite <- (insert_delete_id m k t Ht) at 2.
  rewrite map_size_insert_None by apply lookup_delete_eq. done.
Qed.

(** X2. [delete_task] on an absent id returns [False] and changes nothing.
    On a present id it returns [True]: that id is gone, every other id keeps
    its record, the counter stays, and [persist] has run on the smaller
    store; when the data file can be written it then holds one record less,
    and in a session the deleted record is not among them. *)
Theorem delete_task_spec script_dir s task_id :
  (tasks s !! task_id = None →
   delete_task script_dir task_id s = (Return false, s))
  ∧ (is_Some (tasks s !! task_id) →
     ∃ s',
       delete_task script_dir task_id s = (Return true, s')
       ∧ tasks s' !! task_id = None
       ∧ (∀ k, k ≠ task_id → tasks s' !! k = tasks s !! k)
       ∧ next_id s' = next_id s
       ∧ size (tasks s') = pred (size (tasks s))
       ∧ persist script_dir (set_tasks (delete task_id (tasks s)) s)
         = (Return tt, s')
       ∧ (write_faults (world s) !! DATA_FILE script_dir = None →
          ∃ written,
            files (world s') !! DATA_FILE script_dir
            = Some (JsonDoc (JArr written))
            ∧ length written = pred (size (tasks s))
            ∧ (session script_dir s →
               ∀ t, tasks s !! task_id = Some t → t ∉ written))).
Proof.
  split; [apply delete_task_absent|]. intros Hin.
  eexists. split; [by apply delete_task_present|]. simpl. split_and!.
  - apply lookup_delete_eq.
  - intros k Hk. by apply lookup_delete_ne.
  - done.
  - by apply size_delete_present.
  - by rewrite persist_eq.
  - intros Hw. eexists. split; [by apply save_tasks_file|]. split.
    + rewrite length_as_list. by apply size_delete_present.
    + intros Hs t Ht [k Hk]%elem_of_as_list.
      destruct (session_store_ok _ _ Hs) as [Hid _].
      apply lookup_delete_Some in Hk as [Hne Hk].
      pose proof (Hid _ _ Ht) as H1. pose proof (Hid _ _ Hk) as H2. congruence.
Qed.

Lemma delete_task_spec_witness :
  delete_task "/app" 5 two_tasks_state = (Return false, two_tasks_state)
  ∧ ∃ s', delete_task "/app" 1 two_tasks_state = (Return true, s')
          ∧ tasks s' !! 1 = None
          ∧ tasks s' !! 2 = tasks two_tasks_state !! 2
          ∧ size (tasks s') = 1%nat.
Proof.
  destruct (delete_task_spec "/app" two_tasks_state 5) as [Habsent _].
  destruct (delete_task_spec "/app" two_tasks_state 1) as [_ Hpresent].
  split; [apply Habsent; vm_compute; reflexivity|].
  destruct Hpresent as (s' & H1 & H2 & H3 & _ & H4 & _);
    [vm_compute; eauto|].
  exists s'. split_and!; [exact H1|exact H2|by apply H3|exact H4].
Defined.

(** X3. [add_task] returns the record it has stored under the current
    counter: a six-field task with that id, the stripped title and
    description, the flag, and two successive readings of the clock as
    [date] and [updated_at].  The counter goes up by one.  In a session the
    id was free, so no task is overwritten and the store grows by one; when
    the data file can be written it then holds the whole store. *)
Theorem add_task_spec script_dir title description done s :
  ∃ task s',
    add_task script_dir title description done s = (Return task, s')
    ∧ task = task_record (next_id s)
               (isoformat (clock (world s) (ticks (world s))))
               (isoformat (clock (world s) (S (ticks (world s)))))
               title description done
    ∧ has_fields fieldnames task
    ∧ tasks s' = <[next_id s := task]> (tasks s)
    ∧ next_id s' = next_id s + 1
    ∧ ticks (world s') = S (S (ticks (world s)))
    ∧ (session script_dir s →
       tasks s !! next_id s = None
       ∧ size (tasks s') = S (size (tasks s))
       ∧ ∀ k t, tasks s !! k = Some t → tasks s' !! k = Some t)
    ∧ (write_faults (world s) !! DATA_FILE script_dir = None →
       files (world s') !! DATA_FILE script_dir
       = Some (JsonDoc (JArr (as_list (tasks s'))))).
Proof.
  eexists _, _. split; [apply add_task_eq|]. simpl. split_and!; try done.
  - apply has_fields_task_record.
  - by destruct (save_tasks_frame (DATA_FILE script_dir)
        (as_list (<[next_id s:=task_record (next_id s)
           (isoformat (clock (world s) (ticks (world s))))
           (isoformat (clock (world s) (S (ticks (world s)))))
           title description done]> (tasks s)))
        (set_ticks (S (S (ticks (world s)))) (world s)))
      as (_ & _ & _ & _ & ->).
  - intros Hs. destruct (session_store_ok _ _ Hs) as [_ Hlt].
    assert (tasks s !! next_id s = None) as Hfree.
    { apply eq_None_not_Some. intros Hin. specialize (Hlt _ Hin). lia. }
    split_and!; [done|by apply map_size_insert_None|].
    intros k t Hk. rewrite lookup_insert_ne; [done|]. intros <-. congruence.
  - intros Hw. by apply save_tasks_file.
Qed.

Lemma add_task_spec_witness :
  ∃ task s',
    add_task "/app" " Huevos " "docena" false two_tasks_state = (Return task, s')
    ∧ getitem task "id" = Some (JInt 3)
    ∧ getitem task "title" = Some (JStr "Huevos")
    ∧ size (tasks s') = 3%nat.
Proof.
  destruct (add_task_spec "/app" " Huevos " "docena" false two_tasks_state)
    as (task & s' & H1 & -> & _ & _ & _ & _ & H2 & _).
  destruct (H2 two_tasks_session) as (_ & H3 & _).
  eexists _, s'. split_and!; [exact H1|reflexivity|reflexivity|exact H3].
Defined.

Lemma as_list_coerce_id (m : gmap Z json) :
  (∀ k t, m !! k = Some t → coerce_id t = Some k) →
  omap coerce_id (as_list m) = sorted_keys m.
Proof.
  intros Hid. pose proof (as_list_fmap m) as H.
  induction H as [|k t ks ts Hk _ IH]; [done|].
  cbn [omap list_omap]. by rewrite (Hid _ _ Hk), IH.
Qed.

(** X4. In a session, when the data file can be written, [persist] leaves
    in it one record per task, listed by strictly ascending id: the ids the
    written records coerce to are the sorted keys of the store. *)
Theorem persist_writes_ascending script_dir s :
  session script_dir s →
  write_faults (world s) !! DATA_FILE script_dir = None →
  ∃ s' written,
    persist script_dir s = (Return tt, s')
    ∧ tasks s' = tasks s ∧ next_id s' = next_id s
    ∧ files (world s') !! DATA_FILE script_dir = Some (JsonDoc (JArr written))
    ∧ length written = size (tasks s)
    ∧ omap coerce_id written = sorted_keys (tasks s)
    ∧ StronglySorted Z.lt (omap coerce_id written)
    ∧ Forall2 (λ k t, tasks s !! k = Some t) (sorted_keys (tasks s)) written.
Proof.
  intros Hs Hw. destruct (session_store_ok _ _ Hs) as [Hid _].
  eexists _, _. split; [apply persist_eq|]. simpl.
  split_and!; [done|done|by apply save_tasks_file|apply length_as_list| | |].
  - by apply as_list_coerce_id.
  - rewrite as_list_coerce_id by done. apply sorted_keys_ascending.
  - apply as_list_fmap.
Qed.

Lemma persist_writes_ascending_witness :
  ∃ s' written,
    persist "/app" two_tasks_state = (Return tt, s')
    ∧ files (world s') !! DATA_FILE "/app" = Some (JsonDoc (JArr written))
    ∧ omap coerce_id written = [1; 2].
Proof.
  destruct (persist_writes_ascending "/app" two_tasks_state two_tasks_session)
    as (s' & written & H1 & _ & _ & H2 & _ & H3 & _); [vm_compute; reflexivity|].
  exists s', written. split_and!; [exact H1|exact H2|].
  rewrite H3. vm_compute. reflexivity.
Defined.

(* ===================================================================== *)
(** ** Further properties: loading *)
(* ===================================================================== *)

(** X5. [load_state] takes nothing from the store in memory: whatever
    [tasks] and [next_id] hold, the outcome is the same.  When the data file
    is anything but a JSON array (missing, unreadable, corrupt, another JSON
    value) it returns normally with the empty store and the counter at 1,
    and leaves the files as they are. *)
Theorem load_state_from_file_only script_dir s :
  (∀ m n, load_state script_dir (set_next_id n (set_tasks m s))
          = load_state script_dir s)
  ∧ ((∀ items, files (world s) !! DATA_FILE script_dir
               ≠ Some (JsonDoc (JArr items))) →
     ∃ s', load_state script_dir s = (Return tt, s')
           ∧ tasks s' = ∅ ∧ next_id s' = 1
           ∧ files (world s') = files (world s)).
Proof.
  split.
  - intros m n.
    destruct (load_state_eq script_dir s) as (raw & Hraw & ->).
    destruct (load_state_eq script_dir (set_next_id n (set_tasks m s)))
      as (raw' & Hraw' & ->).
    simpl in *. congruence.
  - intros Hnot.
    destruct (load_state_eq script_dir s) as (raw & Hraw & ->).
    rewrite load_tasks_eq in Hraw |- *.
    destruct (files (world s) !! DATA_FILE script_dir)
      as [[err| |doc|rows]|] eqn:E;
      try (destruct doc; try (by destruct (Hnot items)));
      simpl in Hraw; injection Hraw as <-;
      eexists; (split; [reflexivity|done]).
Qed.

Lemma load_state_from_file_only_witness :
  ∃ s', load_state "/app"
          (set_world (demo_world {[ DATA_FILE "/app" := Corrupt ]})
             two_tasks_state)
        = (Return tt, s')
        ∧ tasks s' = ∅ ∧ next_id s' = 1.
Proof.
  destruct (load_state_from_file_only "/app"
              (set_world (demo_world {[ DATA_FILE "/app" := Corrupt ]})
                 two_tasks_state))
    as [_ (s' & H1 & H2 & H3 & _)].
  - intros items H. vm_compute in H. discriminate H.
  - by exists s'.
Defined.

Lemma NoDup_fmap_eq {A B} (f : A → B) (l : list A) x y :
  NoDup (f <$> l) → x ∈ l → y ∈ l → f x = f y → x = y.
Proof.
  induction l as [|a l IH]; intros Hnd Hx Hy Hf.
  - by apply elem_of_nil in Hx.
  - rewrite fmap_cons in Hnd. apply NoDup_cons in Hnd as [Ha Hnd].
    apply elem_of_cons in Hx as [->|Hx]; apply elem_of_cons in Hy as [->|Hy].
    + done.
    + destruct Ha. rewrite Hf. by apply list_elem_of_fmap_2.
    + destruct Ha. rewrite <- Hf. by apply list_elem_of_fmap_2.
    + by apply IH.
Qed.

Lemma filed_under_elem k raw t :
  t ∈ filed_under k raw ↔ t ∈ raw ∧ coerce_id t = Some k.
Proof. unfold filed_under. rewrite list_elem_of_filter. tauto. Qed.

Lemma index_records_size_distinct raw :
  Forall (λ t, is_Some (coerce_id t)) raw → NoDup (coerce_id <$> raw) →
  size (index_records raw ∅) = length raw.
Proof.
  induction raw as [|t raw IH] using rev_ind; intros Hall Hnd; [done|].
  apply Forall_app in Hall as [Hall [[k Hk] _]%Forall_cons].
  rewrite fmap_app in Hnd. apply NoDup_app in Hnd as (Hnd & Hfresh & _).
  rewrite index_records_snoc, Hk, length_app. simpl.
  rewrite map_size_insert_None; [rewrite IH by done; lia|].
  rewrite index_records_lookup, lookup_empty.
  destruct (last (filed_under k raw)) as [t'|] eqn:E; [|done].
  apply last_Some_elem_of, filed_under_elem in E as [Hin Hk'].
  destruct (Hfresh (Some k)).
  - rewrite <- Hk'. by apply list_elem_of_fmap_2.
  - rewrite <- Hk. simpl. left.
Qed.

(** X6. When the data file holds the array [raw], the ids of the loaded
    store are exactly the integers some record of [raw] coerces to, every
    stored record is a record of [raw] filed under its own id, and a value
    whose id does not coerce (a non-object, an object without ["id"], a
    non-numeric id) is stored nowhere.  When every record coerces and no two
    coerce to the same id, nothing is lost: the store has as many tasks as
    the array has records, and every record is in it. *)
Theorem load_state_keeps_coercible script_dir s0 raw :
  files (world s0) !! DATA_FILE script_dir = Some (JsonDoc (JArr raw)) →
  ∃ s, load_state script_dir s0 = (Return tt, s)
       ∧ (∀ k, is_Some (tasks s !! k) ↔ ∃ t, t ∈ raw ∧ coerce_id t = Some k)
       ∧ (∀ k t, tasks s !! k = Some t → t ∈ raw ∧ coerce_id t = Some k)
       ∧ (∀ t, coerce_id t = None → ∀ k, tasks s !! k ≠ Some t)
       ∧ (Forall (λ t, is_Some (coerce_id t)) raw →
          NoDup (coerce_id <$> raw) →
          size (tasks s) = length raw
          ∧ ∀ t, t ∈ raw → ∃ k, tasks s !! k = Some t).
Proof.
  intros Hfile.
  assert (load_tasks (DATA_FILE script_dir) (world s0) = (Return raw, world s0))
    as Hload by (by rewrite load_tasks_eq, Hfile).
  eexists. split; [by apply load_state_run|]. simpl.
  assert (∀ k, index_records raw ∅ !! k = last (filed_under k raw)) as Hlast.
  { intros k. rewrite index_records_lookup, lookup_empty.
    by destruct (last _). }
  assert (∀ k t, index_records raw ∅ !! k = Some t
                 → t ∈ raw ∧ coerce_id t = Some k) as Hfrom.
  { intros k t. rewrite Hlast. intros E.
    by apply last_Some_elem_of, filed_under_elem in E. }
  split_and!.
  - intros k. split.
    + intros [t Ht]. exists t. by apply Hfrom.
    + intros (t & Hin & Hk). rewrite Hlast.
      assert (t ∈ filed_under k raw) as Hf by (by apply filed_under_elem).
      destruct (filed_under k raw) as [|a l] using rev_ind;
        [by apply elem_of_nil in Hf|].
      rewrite last_snoc. eauto.
  - done.
  - intros t Hnone k Hk. apply Hfrom in Hk as [_ Hk]. congruence.
  - intros Hall Hnd. split; [by apply index_records_size_distinct|].
    intros t Hin. apply (proj1 (Forall_forall _ _) Hall) in Hin as Hsome.
    destruct Hsome as [k Hk]. exists k. rewrite Hlast.
    assert (t ∈ filed_under k raw) as Hf by (by apply filed_under_elem).
    destruct (last (filed_under k raw)) as [t'|] eqn:E.
    + f_equal. apply last_Some_elem_of, filed_under_elem in E as [Hin' Hk'].
      apply (NoDup_fmap_eq coerce_id raw); [done..|congruence].
    + apply last_None in E. rewrite E in Hf. by apply elem_of_nil in Hf.
Qed.

Lemma load_state_keeps_coercible_witness :
  ∃ s, load_state "/app"
         (fresh (demo_world {[ DATA_FILE "/app" := JsonDoc two_tasks_doc ]}))
       = (Return tt, s)
       ∧ size (tasks s) = 2%nat
       ∧ (∀ t, coerce_id t = None → ∀ k, tasks s !! k ≠ Some t).
Proof.
  destruct (load_state_keeps_coercible "/app"
              (fresh (demo_world {[ DATA_FILE "/app" := JsonDoc two_tasks_doc ]}))
              [JObj [("id", JInt 2); ("date", JStr "2024-05-01T08:00:00");
                     ("title", JStr "Pan"); ("description", JStr "");
                     ("done", JBool true);
                     ("updated_at", JStr "2024-05-01T08:00:00")];
               JObj [("id", JInt 1); ("date", JStr "2024-05-01T07:00:00");
                     ("title", JStr "Leche"); ("description", JStr "2%");
                     ("done", JBool false);
                     ("updated_at", JStr "2024-05-01T07:00:00")]])
    as (s & H1 & _ & _ & H2 & H3); [reflexivity|].
  exists s. split_and!; [exact H1| |exact H2].
  apply H3.
  - repeat constructor; vm_compute; eauto.
  - apply (bool_decide_unpack _). vm_compute. exact I.
Defined.

(* ===================================================================== *)
(** ** Further properties: the exporters and the data file *)
(* ===================================================================== *)

Lemma string_app_assoc (a b c : string) : (a +:+ b) +:+ c = a +:+ (b +:+ c).
Proof.
  induction a as [|x a IH]; [done|].
  change (String x ((a +:+ b) +:+ c) = String x (a +:+ (b +:+ c))).
  by rewrite IH.
Qed.

(** An export never goes to the data file. *)
Lemma export_path_not_data_file script_dir w ext :
  export_path script_dir w ext ≠ DATA_FILE script_dir.
Proof.
  unfold export_path, DATA_FILE, EXPORT_DIR.
  set (rest := strftime_compact (clock w (ticks w)) +:+ ext).
  unfold path_join.
  change ("tasks_" +:+ rest) with (String "t" ("asks_" +:+ rest)).
  lazy beta iota.
  destruct (String.eqb script_dir "" || ends_with_slash script_dir);
    match goal with
    | |- context [if ?b then _ else _] => destruct b
    end;
    rewrite ?string_app_assoc; intros H; apply (inj _) in H;
    discriminate H.
Qed.

Lemma data_file_not_export_path script_dir w ext :
  DATA_FILE script_dir ≠ export_path script_dir w ext.
Proof. intros H. symmetry in H. by apply export_path_not_data_file in H. Qed.

Lemma save_tasks_other path l w q :
  q ≠ path → files (save_tasks path l w).2 !! q = files w !! q.
Proof.
  intros Hne. rewrite save_tasks_world.
  destruct (write_faults w !! path) as [[err|err]|]; simpl;
    by rewrite ?lookup_insert_ne.
Qed.

Lemma load_tasks_frame path w :
  let w' := (load_tasks path w).2 in
  files w' = files w ∧ write_faults w' = write_faults w
  ∧ mkdir_faults w' = mkdir_faults w.
Proof.
  cbv zeta. rewrite load_tasks_eq.
  destruct (files w !! path) as [[err| |doc|rows]|]; try destruct doc; done.
Qed.

(** X7. When the export directory can be made and the snapshot written,
    [export_json] returns the path [tasks_<stamp>.json] under the export
    directory; the file there holds the tasks by ascending id, the very
    array [persist] writes, and [load_tasks] reads it back.  The store, the
    output and every other file are as before; the export directory is
    there afterwards. *)
Theorem export_json_snapshot script_dir s :
  mkdir_faults (world s) !! EXPORT_DIR script_dir = None →
  write_faults (world s) !! export_path script_dir (world s) ".json" = None →
  ∃ s',
    export_json script_dir s
    = (Return (export_path script_dir (world s) ".json"), s')
    ∧ export_path script_dir (world s) ".json"
      = path_join (EXPORT_DIR script_dir)
          ("tasks_" +:+ strftime_compact (clock (world s) (ticks (world s)))
           +:+ ".json")
    ∧ tasks s' = tasks s ∧ next_id s' = next_id s
    ∧ files (world s') !! export_path script_dir (world s) ".json"
      = Some (JsonDoc (JArr (as_list (tasks s))))
    ∧ (∀ q, q ≠ export_path script_dir (world s) ".json" →
            files (world s') !! q = files (world s) !! q)
    ∧ EXPORT_DIR script_dir ∈ dirs (world s')
    ∧ stdout (world s') = stdout (world s)
    ∧ (load_tasks (export_path script_dir (world s) ".json") (world s')).1
      = Return (as_list (tasks s))
    ∧ (synced script_dir s →
       files (world s') !! export_path script_dir (world s) ".json"
       = files (world s') !! DATA_FILE script_dir).
Proof.
  intros Hm Hw. eexists. split; [by apply export_json_eq|].
  assert (files (save_tasks (export_path script_dir (world s) ".json")
                   (as_list (tasks s)) (export_started script_dir (world s))).2
          !! export_path script_dir (world s) ".json"
          = Some (JsonDoc (JArr (as_list (tasks s))))) as Hfile
    by (by apply save_tasks_file).
  simpl. split_and!; try done.
  - intros q Hq. by rewrite save_tasks_other.
  - destruct (save_tasks_frame (export_path script_dir (world s) ".json")
                (as_list (tasks s)) (export_started script_dir (world s)))
      as (_ & _ & -> & _). simpl. set_solver.
  - rewrite save_tasks_world. simpl. by rewrite Hw.
  - by rewrite load_tasks_eq, Hfile.
  - intros Hsync. rewrite Hfile.
    rewrite save_tasks_other by apply data_file_not_export_path.
    by rewrite Hsync.
Qed.

Lemma export_json_snapshot_witness :
  ∃ s',
    export_json "/app" two_tasks_state
    = (Return "/app/exports/tasks_20240517_093000.json", s')
    ∧ (load_tasks "/app/exports/tasks_20240517_093000.json" (world s')).1
      = Return (as_list (tasks two_tasks_state)).
Proof.
  destruct (export_json_snapshot "/app" two_tasks_state)
    as (s' & H1 & _ & _ & _ & _ & _ & _ & _ & H2 & _);
    [vm_compute; reflexivity|vm_compute; reflexivity|].
  exists s'. split; [exact H1|exact H2].
Defined.

(** X8. When the snapshot cannot be written [export_json] still returns
    its path normally: one message is printed, the store is untouched, and
    at the path there is what was there before (the file did not open) or a
    corrupt file (the write broke off). *)
Theorem export_json_unwritable script_dir s fault :
  mkdir_faults (world s) !! EXPORT_DIR script_dir = None →
  write_faults (world s) !! export_path script_dir (world s) ".json"
  = Some fault →
  ∃ s',
    export_json script_dir s
    = (Return (export_path script_dir (world s) ".json"), s')
    ∧ tasks s' = tasks s ∧ next_id s' = next_id s
    ∧ stdout (world s')
      = stdout (world s)
        ++ [msg_write_error (export_path script_dir (world s) ".json")
              (Exception match fault with
                         | OpenFails err | WriteFails err => err
                         end)]
    ∧ files (world s') !! export_path script_dir (world s) ".json"
      = match fault with
        | OpenFails _ =>
            files (world s) !! export_path script_dir (world s) ".json"
        | WriteFails _ => Some Corrupt
        end.
Proof.
  intros Hm Hw. eexists. split; [by apply export_json_eq|]. simpl.
  rewrite save_tasks_world. simpl. rewrite Hw.
  destruct fault as [err|err]; simpl; split_and!; try done.
  apply lookup_insert_eq.
Qed.

Lemma export_json_unwritable_witness :
  ∃ s',
    export_json "/app" (fresh no_json_world)
    = (Return "/app/exports/tasks_20240517_093000.json", s')
    ∧ files (world s') !! "/app/exports/tasks_20240517_093000.json" = None
    ∧ stdout (world s')
      = ["Ocurrió un error al escribir en /app/exports/tasks_20240517_093000.json: Disk quota exceeded."].
Proof.
  destruct (export_json_unwritable "/app" (fresh no_json_world)
              (OpenFails "Disk quota exceeded"))
    as (s' & H1 & _ & _ & H2 & H3);
    [vm_compute; reflexivity|vm_compute; reflexivity|].
  exists s'. split_and!; [exact H1|exact H3|exact H2].
Defined.

Lemma export_json_data_file script_dir s :
  let s' := (export_json script_dir s).2 in
  tasks s' = tasks s ∧ next_id s' = next_id s
  ∧ write_faults (world s') = write_faults (world s)
  ∧ files (world s') !! DATA_FILE script_dir
    = files (world s) !! DATA_FILE script_dir.
Proof.
  cbv zeta.
  destruct (mkdir_faults (world s) !! EXPORT_DIR script_dir) as [err|] eqn:E.
  - by rewrite (export_json_no_dir _ _ err).
  - rewrite export_json_eq by done. simpl. split_and!; [done|done| |].
    + by destruct (save_tasks_frame (export_path script_dir (world s) ".json")
                     (as_list (tasks s)) (export_started script_dir (world s)))
        as (-> & _).
    + by rewrite save_tasks_other by apply data_file_not_export_path.
Qed.

Lemma export_csv_data_file script_dir s :
  store_ok s →
  let s' := (export_csv script_dir s).2 in
  tasks s' = tasks s ∧ next_id s' = next_id s
  ∧ write_faults (world s') = write_faults (world s)
  ∧ files (world s') !! DATA_FILE script_dir
    = files (world s) !! DATA_FILE script_dir.
Proof.
  intros [Hid _]. cbv zeta.
  pose proof (data_file_not_export_path script_dir (world s) ".csv") as Hne.
  destruct (mkdir_faults (world s) !! EXPORT_DIR script_dir) as [err|] eqn:E.
  { by rewrite (export_csv_no_dir _ _ err). }
  destruct (write_faults (world s) !! export_path script_dir (world s) ".csv")
    as [[err|err]|] eqn:Ew.
  - by rewrite (export_csv_no_open _ _ err).
  - rewrite (export_csv_no_write _ _ err) by done. simpl.
    by rewrite lookup_insert_ne.
  - rewrite export_csv_eq; [|
      intros k t Hk; destruct (coerce_id_dict _ _ (Hid _ _ Hk)) as (?&?&->);
      eauto|done..].
    simpl. by rewrite lookup_insert_ne.
Qed.

(** X9. Whatever becomes of an export, done or raised, it leaves the store
    and the data file alone: in a session [export_json] and [export_csv]
    change neither [tasks] nor [next_id] nor what the data file holds. *)
Theorem exports_leave_store script_dir s :
  session script_dir s →
  (tasks (export_json script_dir s).2 = tasks s
   ∧ next_id (export_json script_dir s).2 = next_id s
   ∧ files (world (export_json script_dir s).2) !! DATA_FILE script_dir
     = files (world s) !! DATA_FILE script_dir)
  ∧ (tasks (export_csv script_dir s).2 = tasks s
     ∧ next_id (export_csv script_dir s).2 = next_id s
     ∧ files (world (export_csv script_dir s).2) !! DATA_FILE script_dir
       = files (world s) !! DATA_FILE script_dir).
Proof.
  intros Hs. split.
  - by destruct (export_json_data_file script_dir s) as (? & ? & _ & ?).
  - by destruct (export_csv_data_file script_dir s
                   (session_store_ok _ _ Hs)) as (? & ? & _ & ?).
Qed.

Lemma exports_leave_store_witness :
  tasks (export_csv "/app" two_tasks_state).2 = tasks two_tasks_state
  ∧ files (world (export_csv "/app" two_tasks_state).2) !! DATA_FILE "/app"
    = Some (JsonDoc two_tasks_doc).
Proof.
  destruct (exports_leave_store "/app" two_tasks_state two_tasks_session)
    as [_ (H1 & _ & H2)].
  split; [exact H1|]. rewrite H2. vm_compute. reflexivity.
Defined.

(* ===================================================================== *)
(** ** Further properties: the store across commands and restarts *)
(* ===================================================================== *)

(** X10. Ids are kept apart within a session only.  When the task with
    the greatest id [k] (at least 1) is deleted and the store loaded again
    from a data file that can be written, the store comes back without that
    task and the counter falls from above [k] to [k] or below: the next
    [add_task] assigns an id that was in use before, [k] itself when [k - 1]
    is still a task. *)
Theorem reload_reuses_ids script_dir s k :
  session script_dir s →
  write_faults (world s) !! DATA_FILE script_dir = None →
  is_Some (tasks s !! k) → (∀ j, is_Some (tasks s !! j) → j ≤ k) → 1 ≤ k →
  ∃ s1 s2,
    delete_task script_dir k s = (Return true, s1)
    ∧ next_id s1 = next_id s ∧ k < next_id s1
    ∧ load_state script_dir s1 = (Return tt, s2)
    ∧ tasks s2 = delete k (tasks s)
    ∧ next_id s2 ≤ k
    ∧ (is_Some (tasks s !! (k - 1)) → next_id s2 = k)
    ∧ ∀ title description done,
        ∃ task s3,
          add_task script_dir title description done s2 = (Return task, s3)
          ∧ getitem task "id" = Some (JInt (next_id s2)).
Proof.
  intros Hs Hw Hk Hmax Hpos.
  destruct (session_store_ok _ _ Hs) as [Hid Hlt].
  assert (∀ j t, delete k (tasks s) !! j = Some t → coerce_id t = Some j)
    as Hid'.
  { intros j t [_ Hj]%lookup_delete_Some. eauto. }
  eexists _, _. split; [by apply delete_task_present|]. simpl.
  split; [done|]. split; [by apply Hlt|].
  split.
  { apply load_state_run. simpl.
    rewrite load_tasks_eq, save_tasks_file by done. reflexivity. }
  rewrite index_records_as_list by done. simpl.
  split; [done|].
  destruct (id_after_spec (delete k (tasks s)))
    as [[Hempty ->]|(top & Htop & Hle & ->)].
  - split; [lia|]. split.
    + intros [t Ht].
      assert (delete k (tasks s) !! (k - 1) = Some t) as Hin
        by (rewrite lookup_delete_ne by lia; done).
      by rewrite Hempty, lookup_empty in Hin.
    + intros. eexists _, _. split; [apply add_task_eq|]. done.
  - destruct Htop as [t [Hne Ht]%lookup_delete_Some].
    assert (top ≤ k) by (apply Hmax; eauto).
    split; [lia|]. split.
    + intros [t' Ht'].
      assert (k - 1 ≤ top); [|lia].
      apply Hle. exists t'. by rewrite lookup_delete_ne by lia.
    + intros. eexists _, _. split; [apply add_task_eq|]. done.
Qed.

Lemma reload_reuses_ids_witness :
  ∃ s1 s2 task s3,
    delete_task "/app" 2 two_tasks_state = (Return true, s1)
    ∧ next_id s1 = 3
    ∧ load_state "/app" s1 = (Return tt, s2)
    ∧ add_task "/app" "Huevos" "" false s2 = (Return task, s3)
    ∧ getitem task "id" = Some (JInt 2).
Proof.
  destruct (reload_reuses_ids "/app" two_tasks_state 2 two_tasks_session)
    as (s1 & s2 & H1 & H2 & _ & H3 & _ & _ & H4 & H5).
  - vm_compute. reflexivity.
  - vm_compute. eauto.
  - intros j [t Ht]. vm_compute in Ht.
    destruct j as [|[[]|[]|]|]; try discriminate Ht; lia.
  - lia.
  - destruct (H5 "Huevos" "" false) as (task & s3 & H6 & H7).
    exists s1, s2, task, s3. split_and!; [exact H1| |exact H3|exact H6|].
    + rewrite H2. vm_compute. reflexivity.
    + rewrite H7, H4; [reflexivity|]. vm_compute. eauto.
Defined.

(** X11. In a session, deleting the task that [add_task] has just made
    gives back the store as it was before, but not the counter: the id
    stays spent.  When the data file can be written it ends up holding the
    store as it was before. *)
Theorem add_then_delete script_dir title description done s :
  session script_dir s →
  ∃ task s1 s2,
    add_task script_dir title description done s = (Return task, s1)
    ∧ delete_task script_dir (next_id s) s1 = (Return true, s2)
    ∧ tasks s2 = tasks s
    ∧ next_id s2 = next_id s + 1
    ∧ (write_faults (world s) !! DATA_FILE script_dir = None →
       files (world s2) !! DATA_FILE script_dir
       = Some (JsonDoc (JArr (as_list (tasks s))))).
Proof.
  intros Hs. destruct (session_store_ok _ _ Hs) as [_ Hlt].
  assert (tasks s !! next_id s = None) as Hfree.
  { apply eq_None_not_Some. intros Hin. specialize (Hlt _ Hin). lia. }
  eexists _, _, _. split; [apply add_task_eq|]. simpl.
  split; [apply delete_task_present; simpl; rewrite lookup_insert_eq; eauto|].
  simpl. rewrite delete_insert_id by done. split_and!; [done|done|].
  intros Hw. apply save_tasks_file.
  by destruct (save_tasks_frame (DATA_FILE script_dir)
                 (as_list (<[next_id s:=task_record (next_id s)
                    (isoformat (clock (world s) (ticks (world s))))
                    (isoformat (clock (world s) (S (ticks (world s)))))
                    title description done]> (tasks s)))
                 (set_ticks (S (S (ticks (world s)))) (world s)))
    as (-> & _).
Qed.

Lemma add_then_delete_witness :
  ∃ task s1 s2,
    add_task "/app" "Huevos" "" false two_tasks_state = (Return task, s1)
    ∧ delete_task "/app" 3 s1 = (Return true, s2)
    ∧ tasks s2 = tasks two_tasks_state
    ∧ next_id s2 = 4.
Proof.
  destruct (add_then_delete "/app" "Huevos" "" false two_tasks_state
              two_tasks_session) as (task & s1 & s2 & H1 & H2 & H3 & H4 & _).
  exists task, s1, s2. split_and!; [exact H1|exact H2|exact H3|].
  rewrite H4. vm_compute. reflexivity.
Defined.



Lemma load_state_from_degraded script_dir s :
  (∀ items, files (world s) !! DATA_FILE script_dir
            ≠ Some (JsonDoc (JArr items))) →
  ∃ s', load_state script_dir s = (Return tt, s')
        ∧ tasks s' = ∅ ∧ next_id s' = 1.
Proof.
  intros Hnot.
  destruct (load_state_eq script_dir s) as (raw & Hraw & ->).
  rewrite load_tasks_eq in Hraw |- *.
  destruct (files (world s) !! DATA_FILE script_dir)
    as [[err| |doc|rows]|] eqn:E;
    try (destruct doc; try (by destruct (Hnot items)));
    simpl in Hraw; injection Hraw as <-;
    eexists; (split; [reflexivity|done]).
Qed.

(** X13. The first [add_task] after a load overwrites the data file with
    the store, when the file can be written: the file then holds the new
    task and the loaded tasks and nothing else, each with an id that
    coerces.  So a record the load dropped because its id does not coerce
    is no longer in the file, and a file that was corrupt or held another
    JSON value holds the new task alone. *)
Theorem first_add_overwrites_file script_dir s0 s title description done :
  load_state script_dir s0 = (Return tt, s) →
  write_faults (world s0) !! DATA_FILE script_dir = None →
  ∃ task s' written,
    add_task script_dir title description done s = (Return task, s')
    ∧ files (world s') !! DATA_FILE script_dir = Some (JsonDoc (JArr written))
    ∧ (∀ t, t ∈ written ↔ t = task ∨ ∃ k, tasks s !! k = Some t)
    ∧ length written = S (size (tasks s))
    ∧ (∀ t, t ∈ written → is_Some (coerce_id t))
    ∧ (∀ raw bad,
         files (world s0) !! DATA_FILE script_dir = Some (JsonDoc (JArr raw)) →
         bad ∈ raw → coerce_id bad = None → bad ∉ written)
    ∧ ((∀ items, files (world s0) !! DATA_FILE script_dir
                 ≠ Some (JsonDoc (JArr items))) →
       written = [task]).
Proof.
  intros Hload Hw.
  assert (session script_dir s) as Hs by (by eapply session_load).
  destruct (session_store_ok _ _ Hs) as [Hid Hlt].
  assert (tasks s !! next_id s = None) as Hfree.
  { apply eq_None_not_Some. intros Hin. specialize (Hlt _ Hin). lia. }
  assert (write_faults (world s) = write_faults (world s0)) as Hsame.
  { destruct (load_state_eq script_dir s0) as (raw & _ & E).
    rewrite E in Hload. injection Hload as <-. simpl.
    by destruct (load_tasks_frame (DATA_FILE script_dir) (world s0))
      as (_ & -> & _). }
  eexists _, _, _. split; [apply add_task_eq|]. simpl.
  set (task := task_record (next_id s)
                 (isoformat (clock (world s) (ticks (world s))))
                 (isoformat (clock (world s) (S (ticks (world s)))))
                 title description done).
  assert (∀ t, t ∈ as_list (<[next_id s:=task]> (tasks s))
               ↔ t = task ∨ ∃ k, tasks s !! k = Some t) as Helem.
  { intros t. rewrite elem_of_as_list. split.
    - intros [k Hk]. destruct (decide (k = next_id s)) as [->|Hne].
      + rewrite lookup_insert_eq in Hk. left. congruence.
      + rewrite lookup_insert_ne in Hk by done. eauto.
    - intros [->|[k Hk]].
      + exists (next_id s). apply lookup_insert_eq.
      + exists k. rewrite lookup_insert_ne; [done|]. intros <-. congruence. }
  assert (∀ t, t ∈ as_list (<[next_id s:=task]> (tasks s))
               → is_Some (coerce_id t)) as Hco.
  { intros t [->|[k Hk]]%Helem; [by eexists|]. rewrite (Hid _ _ Hk). eauto. }
  split_and!.
  - apply save_tasks_file. simpl. by rewrite Hsame.
  - done.
  - rewrite length_as_list. by apply map_size_insert_None.
  - done.
  - intros raw bad _ _ Hbad Hin. apply Hco in Hin as [k Hk]. congruence.
  - intros Hnot.
    destruct (load_state_from_degraded script_dir s0 Hnot) as (s1 & E & He & _).
    rewrite E in Hload. injection Hload as <-.
    fold task. rewrite He. unfold as_list, sorted_keys, keys.
    rewrite insert_empty, map_to_list_singleton. cbn.
    by rewrite lookup_singleton_eq.
Qed.

Lemma first_add_overwrites_file_witness :
  ∃ s task s' written,
    load_state "/app" (fresh (demo_world {[ DATA_FILE "/app" := Corrupt ]}))
    = (Return tt, s)
    ∧ add_task "/app" "Huevos" "" false s = (Return task, s')
    ∧ files (world s') !! DATA_FILE "/app" = Some (JsonDoc (JArr written))
    ∧ written = [task].
Proof.
  eexists.
  destruct (first_add_overwrites_file "/app"
              (fresh (demo_world {[ DATA_FILE "/app" := Corrupt ]}))
              (load_state "/app"
                 (fresh (demo_world {[ DATA_FILE "/app" := Corrupt ]}))).2
              "Huevos" "" false)
    as (task & s' & written & H1 & H2 & _ & _ & _ & _ & H3);
    [vm_compute; reflexivity|vm_compute; reflexivity|].
  exists task, s', written. split_and!; [vm_compute; reflexivity|exact H1|exact H2|].
  apply H3. intros items H. vm_compute in H. discriminate H.
Defined.

(** X14. In a session [edit_task] on a present id leaves a record that has
    its id, title, description, flag and [updated_at], still filed under the
    same id; it has a [date] exactly when it had one before, so a record
    loaded without its creation date never gets one, and a six-field record
    stays a six-field record. *)
Theorem edit_task_fills_fields script_dir s task_id title description done t :
  session script_dir s →
  tasks s !! task_id = Some t →
  ∃ t' s',
    edit_task script_dir task_id title description done s = (Return true, s')
    ∧ tasks s' !! task_id = Some t'
    ∧ coerce_id t' = Some task_id
    ∧ has_fields ["id"; "title"; "description"; "done"; "updated_at"] t'
    ∧ (is_Some (getitem t' "date") ↔ is_Some (getitem t "date"))
    ∧ (has_fields fieldnames t → has_fields fieldnames t').
Proof.
  intros Hs Ht. destruct (session_store_ok _ _ Hs) as [Hid _].
  pose proof (Hid _ _ Ht) as Hcoerce.
  destruct (coerce_id_dict _ _ Hcoerce) as (f & d & ->).
  eexists _, _. split; [by apply edit_task_present|]. simpl.
  destruct (edited_fields (f :: d) title description done
              (isoformat (clock (world s) (ticks (world s)))))
    as (H1 & H2 & H3 & H4 & H5).
  assert (∀ k, k = "id" ∨ k = "date" →
               k ∉ ["title"; "description"; "done"; "updated_at"]) as Hout.
  { intros k [-> | ->];
      repeat (apply not_elem_of_cons; split; [done|]); apply not_elem_of_nil. }
  split_and!.
  - apply lookup_insert_eq.
  - by rewrite coerce_id_edited.
  - intros k Hk. cbn [getitem].
    apply elem_of_cons in Hk as [->|Hk].
    { rewrite H5 by auto. by apply (coerce_id_has_id (JObj (f :: d)) task_id). }
    apply elem_of_cons in Hk as [->|Hk]; [by rewrite H1|].
    apply elem_of_cons in Hk as [->|Hk]; [by rewrite H2|].
    apply elem_of_cons in Hk as [->|Hk]; [by rewrite H3|].
    apply elem_of_cons in Hk as [->|Hk]; [by rewrite H4|].
    by apply elem_of_nil in Hk.
  - cbn [getitem]. by rewrite H5 by auto.
  - apply has_fields_edited.
Qed.

Lemma edit_task_fills_fields_witness :
  ∃ t' s',
    edit_task "/app" 7 "Pagar luz" "antes del 5" false legacy_state
    = (Return true, s')
    ∧ tasks s' !! 7 = Some t'
    ∧ has_fields ["id"; "title"; "description"; "done"; "updated_at"] t'
    ∧ ¬ is_Some (getitem t' "date").
Proof.
  destruct (edit_task_fills_fields "/app" legacy_state 7 "Pagar luz"
              "antes del 5" false (JObj [("id", JInt 7)]))
    as (t' & s' & H1 & H2 & _ & H3 & H4 & _).
  - apply (session_load "/app"
             (fresh (demo_world {[ DATA_FILE "/app" := JsonDoc legacy_doc ]}))).
    vm_compute. reflexivity.
  - vm_compute. reflexivity.
  - exists t', s'. split_and!; [exact H1|exact H2|exact H3|].
    intros H. apply H4 in H. destruct H as [v Hv]. discriminate Hv.
Defined.

(** X15. The ids [add_task] assigns are positive exactly when the load
    allows it.  If the loaded store is empty or holds an id that is not
    negative, every id assigned later in the session is at least 1.  If the
    loaded store holds negative ids only, the first [add_task] assigns an id
    that is zero or negative. *)
Theorem assigned_ids_sign script_dir s0 s1 title description done :
  load_state script_dir s0 = (Return tt, s1) →
  ((tasks s1 = ∅ ∨ ∃ k, is_Some (tasks s1 !! k) ∧ 0 ≤ k) →
   ∀ s, later script_dir s1 s →
     ∃ n task s',
       add_task script_dir title description done s = (Return task, s')
       ∧ getitem task "id" = Some (JInt n) ∧ 1 ≤ n)
  ∧ (tasks s1 ≠ ∅ → (∀ k, is_Some (tasks s1 !! k) → k < 0) →
     ∃ n task s',
       add_task script_dir title description done s1 = (Return task, s')
       ∧ getitem task "id" = Some (JInt n) ∧ n ≤ 0).
Proof.
  intros Hload.
  assert (session script_dir s1) as Hs1 by (by eapply session_load).
  destruct (load_state_eq script_dir s0) as (raw & _ & E).
  rewrite E in Hload. injection Hload as Hs.
  assert (next_id s1 = id_after (tasks s1)) as Hnext by (by subst s1).
  clear Hs E. split.
  - intros Hcase s Hl.
    pose proof (later_next_id _ _ _ Hs1 Hl) as Hle.
    assert (1 ≤ next_id s1).
    { rewrite Hnext.
      destruct (id_after_spec (tasks s1)) as [[_ ->]|(top & Htop & Hmax & ->)];
        [lia|].
      destruct Hcase as [Hempty|(k & Hk & Hpos)].
      - destruct Htop as [t Ht]. by rewrite Hempty, lookup_empty in Ht.
      - specialize (Hmax _ Hk). lia. }
    eexists _, _, _. split; [apply add_task_eq|]. simpl. split; [done|lia].
  - intros Hne Hneg.
    eexists _, _, _. split; [apply add_task_eq|]. simpl. split; [done|].
    rewrite Hnext.
    destruct (id_after_spec (tasks s1)) as [[Hempty _]|(top & Htop & _ & ->)];
      [done|].
    specialize (Hneg _ Htop). lia.
Qed.

Lemma assigned_ids_sign_witness :
  (∃ n task s',
     add_task "/app" "Huevos" "" false two_tasks_state = (Return task, s')
     ∧ getitem task "id" = Some (JInt n) ∧ 1 ≤ n)
  ∧ (∃ s1 n task s',
       load_state "/app"
         (fresh (demo_world
                   {[ DATA_FILE "/app" := JsonDoc (JArr [JObj [("id", JInt (-4))]]) ]}))
       = (Return tt, s1)
       ∧ add_task "/app" "Huevos" "" false s1 = (Return task, s')
       ∧ getitem task "id" = Some (JInt n) ∧ n ≤ 0).
Proof.
  split.
  - destruct (assigned_ids_sign "/app"
                (fresh (demo_world {[ DATA_FILE "/app" := JsonDoc two_tasks_doc ]}))
                two_tasks_state "Huevos" "" false) as [H _];
      [vm_compute; reflexivity|].
    apply H; [|apply later_refl].
    right. exists 2. split; [vm_compute; eauto|lia].
  - eexists.
    destruct (assigned_ids_sign "/app"
                (fresh (demo_world
                   {[ DATA_FILE "/app" := JsonDoc (JArr [JObj [("id", JInt (-4))]]) ]}))
                (load_state "/app"
                   (fresh (demo_world
                      {[ DATA_FILE "/app"
                         := JsonDoc (JArr [JObj [("id", JInt (-4))]]) ]}))).2
                "Huevos" "" false) as [_ H];
      [vm_compute; reflexivity|].
    destruct H as (n & task & s' & H1 & H2 & H3).
    + intros He. apply (f_equal (λ m, m !! (-4))) in He.
      vm_compute in He. discriminate He.
    + intros k [t Ht]. vm_compute in Ht.
      destruct k as [| |[[]|[[]|[]|]|]]; try discriminate Ht; lia.
    + exists n, task, s'. split_and!; [vm_compute; reflexivity|exact H1|exact H2|exact H3].
Defined.

(* ===================================================================== *)
(** ** Further properties: [strip] *)
(* ===================================================================== *)

Lemma rev_app_app (s1 s2 t : string) :
  String.rev_app s1 s2 +:+ t = String.rev_app s1 (s2 +:+ t).
Proof.
  revert s2. induction s1 as [|a s1 IH]; intros s2; [done|].
  cbn [String.rev_app]. by rewrite IH.
Qed.

Lemma rev_app_rev_app (s1 s2 t : string) :
  String.rev_app (String.rev_app s1 s2) t = String.rev_app s2 (s1 +:+ t).
Proof.
  revert s2 t. induction s1 as [|a s1 IH]; intros s2 t; [done|].
  cbn [String.rev_app]. rewrite IH. done.
Qed.

Lemma string_app_nil_r (s : string) : s +:+ "" = s.
Proof.
  induction s as [|a s IH]; [done|].
  change (String a (s +:+ "") = String a s). by rewrite IH.
Qed.

Lemma string_rev_involutive (s : string) : String.rev (String.rev s) = s.
Proof.
  unfold String.rev. rewrite rev_app_rev_app. apply string_app_nil_r.
Qed.

Lemma rev_app_length (s1 s2 : string) :
  String.length (String.rev_app s1 s2)
  = (String.length s1 + String.length s2)%nat.
Proof.
  revert s2. induction s1 as [|a s1 IH]; intros s2; [done|].
  cbn [String.rev_app]. rewrite IH. simpl. lia.
Qed.

Lemma string_rev_length (s : string) :
  String.length (String.rev s) = String.length s.
Proof. unfold String.rev. rewrite rev_app_length. simpl. lia. Qed.

Lemma rev_app_of_app (s1 s2 acc : string) :
  String.rev_app (s1 +:+ s2) acc = String.rev_app s2 (String.rev_app s1 acc).
Proof.
  revert acc. induction s1 as [|a s1 IH]; intros acc; [done|].
  change (String a s1 +:+ s2) with (String a (s1 +:+ s2)).
  cbn [String.rev_app]. apply IH.
Qed.

Lemma string_rev_app (s1 s2 : string) :
  String.rev (s1 +:+ s2) = String.rev s2 +:+ String.rev s1.
Proof.
  unfold String.rev. rewrite rev_app_of_app, rev_app_app. done.
Qed.

Lemma without_prefix_Some p s r :
  without_prefix p s = Some r → s = p +:+ r.
Proof.
  revert s. induction p as [|a p IH]; intros [|b s] H; simpl in H;
    try discriminate H.
  - by injection H as <-.
  - by injection H as <-.
  - destruct (Ascii.eqb a b) eqn:E; [|discriminate H].
    apply Ascii.eqb_eq in E as ->. apply IH in H as ->. done.
Qed.

Lemma without_prefix_app p r t :
  without_prefix p (p +:+ r +:+ t) = Some (r +:+ t).
Proof.
  induction p as [|a p IH]; [done|].
  change (String a p +:+ r +:+ t) with (String a (p +:+ r +:+ t)).
  cbn [without_prefix]. by rewrite Ascii.eqb_refl.
Qed.

Lemma without_any_Some ps s r :
  without_any ps s = Some r → ∃ p, p ∈ ps ∧ s = p +:+ r.
Proof.
  induction ps as [|p ps IH]; [done|]. simpl.
  destruct (without_prefix p s) as [r'|] eqn:E.
  - intros [= <-]. exists p. split; [left|]. by apply without_prefix_Some.
  - intros H. destruct (IH H) as (q & Hq & ->). exists q. split; [by right|done].
Qed.

Lemma without_any_app ps s r t :
  without_any ps s = Some r → is_Some (without_any ps (s +:+ t)).
Proof.
  induction ps as [|p ps IH]; [done|]. simpl.
  destruct (without_prefix p s) as [r'|] eqn:E.
  - intros _. apply without_prefix_Some in E as ->.
    rewrite string_app_assoc, without_prefix_app. eauto.
  - intros H. destruct (without_prefix p (s +:+ t)); eauto.
Qed.

Lemma drop_leading_fixed ps n s :
  without_any ps s = None → drop_leading ps n s = s.
Proof. intros H. destruct n; simpl; by rewrite ?H. Qed.

Lemma drop_leading_suffix ps n s :
  ∃ pre, s = pre +:+ drop_leading ps n s.
Proof.
  revert s. induction n as [|n IH]; intros s; [by exists ""|].
  simpl. destruct (without_any ps s) as [r|] eqn:E; [|by exists ""].
  apply without_any_Some in E as (p & _ & ->).
  destruct (IH r) as [pre Hpre]. exists (p +:+ pre).
  rewrite string_app_assoc. by rewrite <- Hpre.
Qed.

Lemma drop_leading_done ps n s :
  Forall (λ p, p ≠ "") ps → (String.length s ≤ n)%nat →
  without_any ps (drop_leading ps n s) = None.
Proof.
  intros Hps. revert s. induction n as [|n IH]; intros s Hn.
  - destruct s; [|simpl in Hn; lia]. simpl.
    induction Hps as [|p ps Hp _ IHp]; [done|].
    simpl. by destruct p.
  - simpl. destruct (without_any ps s) as [r|] eqn:E; [|done].
    apply IH. apply without_any_Some in E as (p & Hp & ->).
    rewrite string_length_app in Hn.
    assert (p ≠ "") as Hne by (by apply (proj1 (Forall_forall _ _) Hps)).
    destruct p; [done|]. simpl in Hn. lia.
Qed.

Lemma whitespace_non_empty : Forall (λ p, p ≠ "") whitespace.
Proof. unfold whitespace. cbn [fmap list_fmap app]. repeat constructor; done. Qed.

Lemma whitespace_rev_non_empty :
  Forall (λ p, p ≠ "") (String.rev <$> whitespace).
Proof. unfold whitespace. cbn [fmap list_fmap app]. repeat constructor; done. Qed.

(** [lstrip] leaves no whitespace in front, [rstrip] none at the end. *)
Lemma lstrip_done s : without_any whitespace (lstrip s) = None.
Proof. apply drop_leading_done; [apply whitespace_non_empty|done]. Qed.

Lemma strip_no_leading s : without_any whitespace (strip s) = None.
Proof.
  unfold strip, rstrip.
  destruct (drop_leading_suffix (String.rev <$> whitespace)
              (String.length (lstrip s)) (String.rev (lstrip s)))
    as [pre Hpre].
  set (z := drop_leading _ _ _) in *.
  destruct (without_any whitespace (String.rev z)) as [r|] eqn:E; [|done].
  apply (without_any_app _ _ _ (String.rev pre)) in E as [r' Hr'].
  rewrite <- string_rev_app, <- Hpre, string_rev_involutive in Hr'.
  by rewrite lstrip_done in Hr'.
Qed.

Lemma strip_idempotent s : strip (strip s) = strip s.
Proof.
  unfold strip at 1. unfold lstrip.
  rewrite drop_leading_fixed by apply strip_no_leading.
  unfold strip, rstrip at 1.
  set (a := lstrip s).
  unfold rstrip. rewrite string_rev_involutive.
  rewrite (drop_leading_fixed _ _
             (drop_leading (String.rev <$> whitespace) (String.length a)
                (String.rev a))); [done|].
  apply drop_leading_done; [apply whitespace_rev_non_empty|].
  by rewrite string_rev_length.
Qed.

(* ===================================================================== *)
(** ** Further properties: the list of tasks on the screen *)
(* ===================================================================== *)





Lemma set_stdout_twice o1 o2 w :
  set_stdout o2 (set_stdout o1 w) = set_stdout o2 w.
Proof. done. Qed.

Lemma set_world_twice w1 w2 s :
  set_world w2 (set_world w1 s) = set_world w2 s.
Proof. done. Qed.







(* ===================================================================== *)
(** ** Further properties: reading from the terminal *)
(* ===================================================================== *)

Lemma bind_run_clear {B} (k : unit → M Console B) c :
  bind (run clear_screen) k c = k tt c.
Proof. unfold bind, run, clear_screen, ret. by destruct c. Qed.

Lemma bind_run_print {B} msg (k : unit → M Console B) c :
  bind (run (io (print msg))) k c = k tt (shown msg c).
Proof. done. Qed.

Lemma bind_input {B} prompt (k : string → M Console B) c line rest :
  stdin c = line :: rest →
  bind (input prompt) k c
  = k line {| sys := sys (shown prompt c); stdin := rest |}.
Proof. intros H. unfold bind, input. by rewrite H. Qed.

Lemma bind_input_eof {B} prompt (k : string → M Console B) c :
  stdin c = [] →
  bind (input prompt) k c
  = (Raise (Exception "EOF when reading a line"), shown prompt c).
Proof. intros H. unfold bind, input. by rewrite H. Qed.

Lemma bind_run_return {A B} (m : M Sys A) (k : A → M Console B) c a s' :
  m (sys c) = (Return a, s') →
  bind (run m) k c = k a {| sys := s'; stdin := stdin c |}.
Proof. intros H. unfold bind, run. by rewrite H. Qed.

Lemma bind_run_raise {A B} (m : M Sys A) (k : A → M Console B) c e s' :
  m (sys c) = (Raise e, s') →
  bind (run m) k c = (Raise e, {| sys := s'; stdin := stdin c |}).
Proof. intros H. unfold bind, run. by rewrite H. Qed.

Lemma truthy_str s : truthy (JStr s) = negb (String.eqb s "").
Proof. by destruct s. Qed.

(** The loop of [input_non_empty]: blank lines are skipped with a warning
    each, the first line with text in it is returned stripped. *)
Lemma input_non_empty_loop_found prompt blanks line rest n c :
  Forall (λ l, strip l = "") blanks → strip line ≠ "" →
  stdin c = blanks ++ line :: rest → (length blanks < n)%nat →
  input_non_empty_loop n prompt c
  = (Return (strip line),
     console_after c (world (sys c))
       (flat_map (λ _, [prompt; msg_empty_text]) blanks ++ [prompt]) rest).
Proof.
  intros Hblank Hline. revert n c.
  induction Hblank as [|b blanks Hb _ IH]; intros n c Hin Hn.
  - destruct n as [|n]; [simpl in Hn; lia|].
    cbn [input_non_empty_loop]. rewrite (bind_input _ _ _ line rest) by done.
    rewrite truthy_str.
    destruct (String.eqb (strip line) "") eqn:E;
      [by apply String.eqb_eq in E|].
    done.
  - destruct n as [|n]; [simpl in Hn; lia|].
    cbn [input_non_empty_loop].
    rewrite (bind_input _ _ _ b (blanks ++ line :: rest)) by done.
    rewrite truthy_str, Hb. cbn [String.eqb negb].
    rewrite bind_run_print.
    rewrite IH by (simpl in *; done || lia).
    unfold console_after. console_simpl.
    rewrite !set_stdout_twice, !set_world_twice, <- !app_assoc. done.
Qed.

Lemma input_non_empty_loop_eof prompt blanks n c :
  Forall (λ l, strip l = "") blanks →
  stdin c = blanks → (length blanks < n)%nat →
  input_non_empty_loop n prompt c
  = (Raise (Exception "EOF when reading a line"),
     console_after c (world (sys c))
       (flat_map (λ _, [prompt; msg_empty_text]) blanks ++ [prompt]) []).
Proof.
  intros Hblank. revert n c.
  induction Hblank as [|b blanks Hb _ IH]; intros n c Hin Hn.
  - destruct n as [|n]; [simpl in Hn; lia|].
    cbn [input_non_empty_loop]. rewrite bind_input_eof by done.
    unfold shown, console_after. by rewrite Hin.
  - destruct n as [|n]; [simpl in Hn; lia|].
    cbn [input_non_empty_loop].
    rewrite (bind_input _ _ _ b blanks) by done.
    rewrite truthy_str, Hb. cbn [String.eqb negb].
    rewrite bind_run_print.
    rewrite IH by (simpl in *; done || lia).
    unfold console_after. console_simpl.
    rewrite !set_stdout_twice, !set_world_twice, <- !app_assoc. done.
Qed.

Lemma split_at_text (l : list string) :
  Forall (λ x, strip x = "") l
  ∨ ∃ blanks line rest,
      l = blanks ++ line :: rest
      ∧ Forall (λ x, strip x = "") blanks ∧ strip line ≠ "".
Proof.
  induction l as [|x l IH]; [by left|].
  destruct (decide (strip x = "")) as [Hx|Hx].
  - destruct IH as [IH|(blanks & line & rest & -> & Hb & Hl)].
    + left. by constructor.
    + right. exists (x :: blanks), line, rest. split_and!; [done| |done].
      by constructor.
  - right. exists [], x, l. split_and!; [done|constructor|done].
Qed.

(** X18. [input_non_empty] skips every line that is blank once stripped,
    printing its warning for each, and returns the first line with text in
    it, stripped; the lines after it are left to read.  If no such line
    comes it ends in [EOFError].  What it returns is never empty and has no
    whitespace around it. *)
Theorem input_non_empty_spec prompt c :
  (∀ blanks line rest,
     stdin c = blanks ++ line :: rest →
     Forall (λ l, strip l = "") blanks → strip line ≠ "" →
     input_non_empty prompt c
     = (Return (strip line),
        console_after c (world (sys c))
          (flat_map (λ _, [prompt; msg_empty_text]) blanks ++ [prompt])
          rest))
  ∧ (Forall (λ l, strip l = "") (stdin c) →
     input_non_empty prompt c
     = (Raise (Exception "EOF when reading a line"),
        console_after c (world (sys c))
          (flat_map (λ _, [prompt; msg_empty_text]) (stdin c) ++ [prompt])
          []))
  ∧ (∀ v c', input_non_empty prompt c = (Return v, c') →
             v ≠ "" ∧ strip v = v).
Proof.
  assert (∀ blanks line rest,
     stdin c = blanks ++ line :: rest →
     Forall (λ l, strip l = "") blanks → strip line ≠ "" →
     input_non_empty prompt c
     = (Return (strip line),
        console_after c (world (sys c))
          (flat_map (λ _, [prompt; msg_empty_text]) blanks ++ [prompt])
          rest)) as Hfound.
  { intros blanks line rest Hin Hb Hl. unfold input_non_empty.
    apply input_non_empty_loop_found; [done..|].
    rewrite Hin, length_app. simpl. lia. }
  assert (Forall (λ l, strip l = "") (stdin c) →
     input_non_empty prompt c
     = (Raise (Exception "EOF when reading a line"),
        console_after c (world (sys c))
          (flat_map (λ _, [prompt; msg_empty_text]) (stdin c) ++ [prompt])
          [])) as Heof.
  { intros Hb. unfold input_non_empty.
    apply input_non_empty_loop_eof; [done|done|lia]. }
  split_and!; [done|done|].
  intros v c' Hrun.
  destruct (split_at_text (stdin c))
    as [Hb|(blanks & line & rest & Hin & Hb & Hl)].
  - rewrite (Heof Hb) in Hrun. discriminate Hrun.
  - rewrite (Hfound _ _ _ Hin Hb Hl) in Hrun. injection Hrun as <- _.
    split; [done|apply strip_idempotent].
Qed.

Lemma input_non_empty_spec_witness :
  input_non_empty "Título: "
    {| sys := fresh (demo_world ∅); stdin := ["   "; " Pan integral "; "x"] |}
  = (Return "Pan integral",
     {| sys := set_world
                 (set_stdout ["Título: "; msg_empty_text; "Título: "]
                    (demo_world ∅)) (fresh (demo_world ∅));
        stdin := ["x"] |}).
Proof.
  destruct (input_non_empty_spec "Título: "
              {| sys := fresh (demo_world ∅);
                 stdin := ["   "; " Pan integral "; "x"] |}) as (H & _ & _).
  apply (H ["   "] " Pan integral " ["x"]).
  - reflexivity.
  - repeat constructor.
  - vm_compute. discriminate.
Defined.

(** X19. A title that [input_non_empty] has returned goes into the store
    as it is: [add_task] stores that very text, which is not empty. *)
Theorem typed_title_is_stored script_dir prompt c title c' description done :
  input_non_empty prompt c = (Return title, c') →
  ∃ task s',
    add_task script_dir title description done (sys c') = (Return task, s')
    ∧ getitem task "title" = Some (JStr title)
    ∧ title ≠ ""
    ∧ tasks s' !! next_id (sys c') = Some task.
Proof.
  intros Hrun.
  destruct (input_non_empty_spec prompt c) as (_ & _ & H).
  destruct (H _ _ Hrun) as [Hne Hstrip].
  eexists _, _. split; [apply add_task_eq|]. simpl.
  split_and!; [by rewrite Hstrip|done|apply lookup_insert_eq].
Qed.

Lemma typed_title_is_stored_witness :
  ∃ c' task s',
    input_non_empty "Título: "
      {| sys := fresh (demo_world ∅); stdin := ["   "; " Pan integral "] |}
    = (Return "Pan integral", c')
    ∧ add_task "/app" "Pan integral" "" false (sys c') = (Return task, s')
    ∧ getitem task "title" = Some (JStr "Pan integral").
Proof.
  eexists.
  destruct (typed_title_is_stored "/app" "Título: "
              {| sys := fresh (demo_world ∅);
                 stdin := ["   "; " Pan integral "] |}
              "Pan integral"
              (input_non_empty "Título: "
                 {| sys := fresh (demo_world ∅);
                    stdin := ["   "; " Pan integral "] |}).2
              "" false) as (task & s' & H1 & H2 & _);
    [vm_compute; reflexivity|].
  exists task, s'. split_and!; [vm_compute; reflexivity|exact H1|exact H2].
Defined.

(* ===================================================================== *)
(** ** Further properties: the export menu *)
(* ===================================================================== *)

Section ExportMenu.
Variable script_dir : string.

(** [export_menu] up to the answer: the menu is printed, one line read. *)
Lemma export_menu_asks c line rest :
  stdin c = line :: rest →
  export_menu script_dir c =
  (let choice := strip line in
   if String.eqb choice "1" then
     p <- run (export_json script_dir) ;;
     run (io (print ("✅ Exportado JSON en: " +:+ p +:+ nl))) ;;
     input "Enter para continuar..." ;;
     ret tt
   else if String.eqb choice "2" then
     p <- run (export_csv script_dir) ;;
     run (io (print ("✅ Exportado CSV en: " +:+ p +:+ nl))) ;;
     input "Enter para continuar..." ;;
     ret tt
   else ret tt)
    (console_after c (world (sys c)) export_menu_lines rest).
Proof.
  intros Hin. unfold export_menu.
  rewrite bind_run_clear, !bind_run_print.
  rewrite (bind_input _ _ _ line rest) by done.
  unfold console_after, export_menu_lines. console_simpl.
  rewrite !set_stdout_twice, !set_world_twice, <- !app_assoc.
  cbn [app]. reflexivity.
Qed.

End ExportMenu.

(** X20. Answering 1 in the export menu ends with the line that reports
    the JSON export as done whenever the export directory can be made,
    whether or not the snapshot could be written: when it could not, the
    message of the failed write comes first and the report of success
    follows it all the same. *)
Theorem export_menu_json_reports_success script_dir c line enter rest :
  stdin c = line :: enter :: rest → strip line = "1" →
  mkdir_faults (world (sys c)) !! EXPORT_DIR script_dir = None →
  ∃ c',
    export_menu script_dir c = (Return tt, c')
    ∧ stdin c' = rest
    ∧ tasks (sys c') = tasks (sys c)
    ∧ stdout (world (sys c'))
      = stdout (world (sys c)) ++ export_menu_lines
        ++ match write_faults (world (sys c))
                 !! export_path script_dir (world (sys c)) ".json" with
           | None => []
           | Some (OpenFails err) | Some (WriteFails err) =>
               [msg_write_error
                  (export_path script_dir (world (sys c)) ".json")
                  (Exception err)]
           end
        ++ ["✅ Exportado JSON en: "
            +:+ export_path script_dir (world (sys c)) ".json" +:+ nl;
            "Enter para continuar..."]
    ∧ files (world (sys c'))
        !! export_path script_dir (world (sys c)) ".json"
      = match write_faults (world (sys c))
              !! export_path script_dir (world (sys c)) ".json" with
        | None => Some (JsonDoc (JArr (as_list (tasks (sys c)))))
        | Some (OpenFails _) =>
            files (world (sys c))
              !! export_path script_dir (world (sys c)) ".json"
        | Some (WriteFails _) => Some Corrupt
        end.
Proof.
  intros Hin Hone Hm.
  rewrite (export_menu_asks _ _ line (enter :: rest)) by exact Hin.
  cbv zeta. rewrite Hone. cbn [String.eqb Ascii.eqb Bool.eqb].
  erewrite bind_run_return; [|apply export_json_eq; exact Hm].
  rewrite bind_run_print.
  erewrite bind_input; [|reflexivity].
  eexists. split; [reflexivity|].
  unfold console_after, export_started, export_path. console_simpl.
  rewrite !save_tasks_world. console_simpl.
  set (p := path_join _ _).
  destruct (write_faults (world (sys c)) !! p) as [[err|err]|];
    console_simpl; rewrite <- ?app_assoc; cbn [app];
    (split_and!;
     [reflexivity|reflexivity|reflexivity
     |rewrite ?lookup_insert_eq; reflexivity]).
Qed.

Lemma export_menu_json_reports_success_witness :
  ∃ c',
    export_menu "/app" {| sys := fresh no_json_world; stdin := [" 1 "; ""] |}
    = (Return tt, c')
    ∧ stdout (world (sys c'))
      = export_menu_lines
        ++ ["Ocurrió un error al escribir en /app/exports/tasks_20240517_093000.json: Disk quota exceeded.";
            "✅ Exportado JSON en: /app/exports/tasks_20240517_093000.json"
            +:+ nl;
            "Enter para continuar..."]
    ∧ files (world (sys c')) !! "/app/exports/tasks_20240517_093000.json"
      = None.
Proof.
  destruct (export_menu_json_reports_success "/app"
              {| sys := fresh no_json_world; stdin := [" 1 "; ""] |}
              " 1 " "" [])
    as (c' & H1 & _ & _ & H2 & H3);
    [reflexivity|reflexivity|vm_compute; reflexivity|].
  exists c'. split_and!; [exact H1|exact H2|exact H3].
Defined.

(** X21. Answering 2 in the export menu when the CSV export fails (the
    export directory cannot be made, or the file cannot be opened or
    written) ends the menu with the export's exception: nothing is printed
    after the menu itself, no report of success, and the store is as
    before. *)
Theorem export_menu_csv_raises script_dir c line rest err :
  stdin c = line :: rest → strip line = "2" →
  (mkdir_faults (world (sys c)) !! EXPORT_DIR script_dir = Some err
   ∨ (mkdir_faults (world (sys c)) !! EXPORT_DIR script_dir = None
      ∧ (write_faults (world (sys c))
           !! export_path script_dir (world (sys c)) ".csv"
         = Some (OpenFails err)
         ∨ write_faults (world (sys c))
             !! export_path script_dir (world (sys c)) ".csv"
           = Some (WriteFails err)))) →
  ∃ c',
    export_menu script_dir c = (Raise (Exception err), c')
    ∧ stdin c' = rest
    ∧ tasks (sys c') = tasks (sys c)
    ∧ stdout (world (sys c')) = stdout (world (sys c)) ++ export_menu_lines.
Proof.
  intros Hin Htwo Hfault.
  rewrite (export_menu_asks _ _ line rest) by exact Hin.
  cbv zeta. rewrite Htwo. cbn [String.eqb Ascii.eqb Bool.eqb].
  destruct Hfault as [Hm|[Hm [Hw|Hw]]].
  - erewrite bind_run_raise; [|apply export_csv_no_dir; exact Hm].
    eexists. split; [reflexivity|]. console_simpl. by split_and!.
  - erewrite bind_run_raise; [|apply export_csv_no_open; [exact Hm|exact Hw]].
    eexists. split; [reflexivity|]. console_simpl. by split_and!.
  - erewrite bind_run_raise; [|apply export_csv_no_write; [exact Hm|exact Hw]].
    eexists. split; [reflexivity|]. console_simpl. by split_and!.
Qed.

Lemma export_menu_csv_raises_witness :
  ∃ c',
    export_menu "/app" {| sys := fresh no_csv_world; stdin := ["2"; ""] |}
    = (Raise (Exception "Disk quota exceeded"), c')
    ∧ stdout (world (sys c')) = export_menu_lines.
Proof.
  destruct (export_menu_csv_raises "/app"
              {| sys := fresh no_csv_world; stdin := ["2"; ""] |}
              "2" [""] "Disk quota exceeded")
    as (c' & H1 & _ & _ & H2);
    [reflexivity|reflexivity| |].
  - right. split; [vm_compute; reflexivity|left; vm_compute; reflexivity].
  - exists c'. split; [exact H1|exact H2].
Defined.

(* ===================================================================== *)
(** ** Further properties: editing a task with its own values *)
(* ===================================================================== *)

(** X22. Editing the task [add_task] has just made with the title,
    description and flag it was given changes nothing in its record but
    [updated_at], which takes the time of the edit: the text was stripped
    when it was added, and stripping it again leaves it as it is. *)
Theorem add_then_edit_same script_dir title description done s :
  ∃ task s1 task' s2,
    add_task script_dir title description done s = (Return task, s1)
    ∧ edit_task script_dir (next_id s) title description done s1
      = (Return true, s2)
    ∧ edit_task script_dir (next_id s) (strip title) (strip description)
        done s1 = (Return true, s2)
    ∧ tasks s2 = <[next_id s := task']> (tasks s)
    ∧ setitem task "updated_at"
        (JStr (isoformat (clock (world s) (S (S (ticks (world s)))))))
      = Some task'
    ∧ (∀ k, k ≠ "updated_at" → getitem task' k = getitem task k)
    ∧ next_id s2 = next_id s + 1.
Proof.
  pose proof (add_task_eq script_dir title description done s) as Ha.
  cbv zeta in Ha.
  set (task := task_record _ _ _ _ _ _) in Ha.
  set (w1 := (save_tasks _ _ _).2) in Ha.
  set (s1 := Build_Sys _ _ _) in Ha.
  assert (Hc : clock w1 = clock (world s)
               ∧ ticks w1 = S (S (ticks (world s)))).
  { unfold w1.
    by destruct (save_tasks_frame (DATA_FILE script_dir)
                   (as_list (<[next_id s:=task]> (tasks s)))
                   (set_ticks (S (S (ticks (world s)))) (world s)))
      as (_ & _ & _ & -> & ->). }
  destruct Hc as [Hc Ht].
  assert (Hl : tasks s1 !! next_id s = Some task) by apply lookup_insert_eq.
  pose proof (edit_task_present script_dir (next_id s) title description
                done s1 _ _ Hl) as He.
  pose proof (edit_task_present script_dir (next_id s) (strip title)
                (strip description) done s1 _ _ Hl) as He2.
  cbv zeta in He, He2. unfold edited in He, He2.
  rewrite !strip_idempotent in He2.
  eexists task, s1, _, _.
  split; [exact Ha|]. split; [exact He|]. split; [exact He2|].
  split.
  { cbn [tasks]. change (tasks s1) with (<[next_id s:=task]> (tasks s)).
    change (world s1) with w1. rewrite insert_insert_eq, Hc, Ht.
    reflexivity. }
  unfold task, task_record, edited.
  cbn [setitem getitem dict_get dict_set String.eqb Ascii.eqb Bool.eqb
       next_id].
  split; [reflexivity|]. split; [|reflexivity].
  intros k Hk.
  destruct (String.eqb k "id"); [reflexivity|].
  destruct (String.eqb k "date"); [reflexivity|].
  destruct (String.eqb k "title"); [reflexivity|].
  destruct (String.eqb k "description"); [reflexivity|].
  destruct (String.eqb k "done"); [reflexivity|].
  destruct (String.eqb k "updated_at") eqn:E; [|reflexivity].
  by apply String.eqb_eq in E.
Qed.
